(** * LetsPack: a shallow embedding of the asset packer and its properties

    The repository is one JavaScript class, [LetsPack], kept in several
    revisions:

    - [src/src/letsPack.js]: the callback revision (module [Sync] below);
    - [src/unnamed/part_001], lines 193-437: the [async] revision with
      [#writeToFile] and URL sources (module [Async]);
    - [src/unnamed/part_001], lines 438-673: the revision with private
      fields, URL sources and the delayed minify (module [Delayed]).

    The oldest text, [part_001] lines 1-192, builds the manifest without
    writing it and is not modelled.

    JavaScript strings are modelled as [string] (sequences of code units,
    read as bytes), the [outputFiles] object as a record of two optional
    paths, plain objects used as dictionaries as insertion-ordered
    association lists, the file system as a finite map from resolved paths
    to contents, and everything the event loop runs later (promise
    reactions, I/O callbacks) as a queue of defunctionalised tasks. *)

From Stdlib Require Import ZArith String Ascii List Bool Lia DecimalString.
From stdpp Require Import base tactics option list gmap strings.
Import ListNotations.

Local Open Scope string_scope.
Local Open Scope Z_scope.
Local Open Scope list_scope.

(* ===================================================================== *)
(** ** JavaScript strings *)
(* ===================================================================== *)

Module JsString.

Definition slash : ascii := "/"%char.
(** The backslash, code unit 92. *)
Definition backslash : ascii := ascii_of_nat 92.
(** The double quote, code unit 34. *)
Definition dquote : ascii := ascii_of_nat 34.

(** [s.length] *)
Definition len (s : string) : Z := Z.of_nat (String.length s).

(** [s.includes(c)] for a one-character needle. *)
Fixpoint includes (c : ascii) (s : string) : bool :=
  match s with
  | EmptyString => false
  | String a s' => if Ascii.eqb a c then true else includes c s'
  end.

(** [s.replaceAll(a, b)] for one-character [a] and [b]. *)
Fixpoint replaceAll (a b : ascii) (s : string) : string :=
  match s with
  | EmptyString => EmptyString
  | String x s' => String (if Ascii.eqb x a then b else x) (replaceAll a b s')
  end.

(** [s.lastIndexOf(c)]: the index of the last occurrence, -1 when there is
    none. [i] is the index of the head of [s], [found] the last index seen. *)
Fixpoint lastIndexOf_from (c : ascii) (s : string) (i found : Z) : Z :=
  match s with
  | EmptyString => found
  | String a s' => lastIndexOf_from c s' (i + 1) (if Ascii.eqb a c then i else found)
  end.

Definition lastIndexOf (c : ascii) (s : string) : Z := lastIndexOf_from c s 0 (-1).

Fixpoint skip (n : nat) (s : string) : string :=
  match n, s with
  | O, _ => s
  | S n', String _ s' => skip n' s'
  | S _, EmptyString => EmptyString
  end.

(** [s.substring(start)]: a negative start counts as 0, a start past the
    end gives the empty string. *)
Definition substring (s : string) (start : Z) : string := skip (Z.to_nat start) s.

(** [s.startsWith(p)] *)
Fixpoint startsWith (p s : string) : bool :=
  match p, s with
  | EmptyString, _ => true
  | String a p', String b s' => Ascii.eqb a b && startsWith p' s'
  | String _ _, EmptyString => false
  end.

(** [s.endsWith(p)] *)
Definition endsWith (p s : string) : bool :=
  let n := String.length s in
  let k := String.length p in
  (k <=? n)%nat && String.eqb (skip (n - k) s) p.

(** A template literal prints an absent property as [undefined]. *)
Definition template (v : option string) : string :=
  match v with Some s => s | None => "undefined" end.

(** JavaScript truthiness of a string-valued property. *)
Definition truthy (v : option string) : bool :=
  match v with Some (String _ _) => true | _ => false end.

(** The text after the last slash:
    [p.substring(p.lastIndexOf("/") + 1)]. *)
Definition afterLastSlash (p : string) : string :=
  substring p (lastIndexOf slash p + 1).

End JsString.

(* ===================================================================== *)
(** ** Plain objects used as dictionaries *)
(* ===================================================================== *)

(** A JavaScript object with string keys keeps its properties in insertion
    order; assigning to an existing key overwrites the value in place. *)
Module JsObj.

Definition t := list (string * string).

Definition empty : t := [].

(** [o[k] = v] *)
Fixpoint set (k v : string) (o : t) : t :=
  match o with
  | [] => [(k, v)]
  | (k', v') :: o' => if String.eqb k' k then (k, v) :: o' else (k', v') :: set k v o'
  end.

(** [o[k]] *)
Fixpoint get (k : string) (o : t) : option string :=
  match o with
  | [] => None
  | (k', v') :: o' => if String.eqb k' k then Some v' else get k o'
  end.

End JsObj.

(* ===================================================================== *)
(** ** JSON.stringify on a dictionary of strings *)
(* ===================================================================== *)

Module Json.
Import JsString.

Definition hexDigit (n : nat) : ascii :=
  match n with
  | 0%nat => "0" | 1%nat => "1" | 2%nat => "2" | 3%nat => "3"
  | 4%nat => "4" | 5%nat => "5" | 6%nat => "6" | 7%nat => "7"
  | 8%nat => "8" | 9%nat => "9" | 10%nat => "a" | 11%nat => "b"
  | 12%nat => "c" | 13%nat => "d" | 14%nat => "e" | _ => "f"
  end%char.

(** One code unit inside a JSON string literal: the quote and the backslash
    are escaped, control characters use the short escapes or [\u00XX]. *)
Definition escapeChar (c : ascii) : string :=
  let n := nat_of_ascii c in
  let esc (x : ascii) := String backslash (String x EmptyString) in
  if Ascii.eqb c dquote then esc dquote
  else if Ascii.eqb c backslash then esc backslash
  else if (n =? 8)%nat then esc "b"%char
  else if (n =? 9)%nat then esc "t"%char
  else if (n =? 10)%nat then esc "n"%char
  else if (n =? 12)%nat then esc "f"%char
  else if (n =? 13)%nat then esc "r"%char
  else if (n <? 32)%nat then
    String backslash
      (String "u" (String "0" (String "0"
        (String (hexDigit (n / 16)) (String (hexDigit (n mod 16)) EmptyString)))))
  else String c EmptyString.

Fixpoint escape (s : string) : string :=
  match s with
  | EmptyString => EmptyString
  | String c s' => escapeChar c +:+ escape s'
  end.

Definition quote (s : string) : string :=
  String dquote (escape s +:+ String dquote EmptyString).

Definition newline : string := String (ascii_of_nat 10) EmptyString.

Fixpoint joinWith (sep : string) (l : list string) : string :=
  match l with
  | [] => EmptyString
  | [x] => x
  | x :: l' => x +:+ sep +:+ joinWith sep l'
  end.

(** [JSON.stringify(o)] *)
Definition stringify (o : JsObj.t) : string :=
  "{" +:+ joinWith "," (map (fun kv => quote (fst kv) +:+ ":" +:+ quote (snd kv)) o) +:+ "}".

(** [JSON.stringify(o, null, 4)] *)
Definition stringifyIndent4 (o : JsObj.t) : string :=
  match o with
  | [] => "{}"
  | _ =>
      "{" +:+ newline
      +:+ joinWith ("," +:+ newline)
            (map (fun kv => "    " +:+ quote (fst kv) +:+ ": " +:+ quote (snd kv)) o)
      +:+ newline +:+ "}"
  end.

End Json.

(* ===================================================================== *)
(** ** Errors, values and the external services *)
(* ===================================================================== *)

Inductive Error :=
| UsageError (msg : string)      (* [Error("Uknown type for ...")] *)
| ENOENT (path : string)         (* no such file or directory *)
| EWRITE (path : string)         (* [writeFile] could not write *)
| ServiceError (what : string)   (* the minifier or the CSS pipeline failed *)
| TypeError (what : string).     (* a property of [null], an argument of the wrong type *)

(** How a JavaScript computation ends: with a value or with a throw. For a
    promise: fulfilled or rejected. *)
Inductive Completion (A : Type) :=
| Normal (a : A)
| Throw (e : Error).
Arguments Normal {A} a.
Arguments Throw {A} e.

(** The values the source argument of [scripts] and [styles] can take. *)
Inductive JsValue :=
| JUndefined
| JNull
| JBool (b : bool)
| JNumber (n : Z)
| JString (s : string)
| JArray (items : list string)
| JObject (o : JsObj.t).

(** What [new URL(link)] exposes and the code reads. *)
Record URL := { protocol : string }.

Inductive Plugin := autoprefixer | importer | csso.

(** [terserConfig] *)
Record TerserConfig := { mangle : bool; compress : JsObj.t }.
Definition terserConfig : TerserConfig := {| mangle := true; compress := JsObj.empty |}.

(** The libraries the class calls: [path], [md5-file]'s digest, [terser],
    [postcss] and the [URL] constructor ([None]: the constructor throws). *)
Class Services := {
  (* [path.resolve(p)]: the absolute, normalised path; an absolute path
     resolves to itself *)
  path_resolve : string -> string;
  path_resolve_idem : forall p, path_resolve (path_resolve p) = path_resolve p;
  (* [path.join(dir, file)] *)
  path_join : string -> string -> string;
  (* the md5 of a content, 32 hexadecimal digits *)
  digest : string -> string;
  digest_nonempty : forall c, digest c <> EmptyString;
  (* [minify(codes, config)]: the promise fulfilled with [options.code] or
     rejected *)
  terser_minify : JsObj.t -> TerserConfig -> Completion string;
  (* [postcss(plugins).process(css, { from, to })]: fulfilled with
     [result.css] or rejected *)
  postcss_process : list Plugin -> string -> string -> string -> Completion string;
  (* [new URL(link)] *)
  url_parse : string -> option URL
}.

(* ===================================================================== *)
(** ** The machine: registry, file system, event trace, task queue *)
(* ===================================================================== *)

(** [outputFiles], the registry of the last output paths. *)
Record OutputFiles := { css : option string; js : option string }.

Definition initialOutputFiles : OutputFiles := {| css := None; js := None |}.

Inductive Slot := SlotJs | SlotCss.

Definition slotOf (s : Slot) (o : OutputFiles) : option string :=
  match s with SlotJs => js o | SlotCss => css o end.

Inductive Channel := Stdout | Stderr.

Inductive Message :=
| MsgText (s : string)
| MsgError (e : Error).

(** Observable effects, in the order they happen. *)
Inductive Event :=
| EvReadFile (path : string)                (* a file read, sync or async *)
| EvReadDir (path : string)                 (* [readdirSync] *)
| EvStat (path : string)                    (* [stat] *)
| EvGet (url : string)                      (* [https.get] issued *)
| EvWrite (path content : string)           (* [writeFile] completed *)
| EvWriteFailed (path : string)             (* [writeFile] failed *)
| EvConsole (ch : Channel) (m : Message)    (* [console.log] / [console.error] *)
| EvSettled (p : nat) (r : Completion unit) (* the promise of an async method settles *)
| EvUnhandled (e : Error)                   (* a promise without rejection handler rejects *)
| EvUncaught (e : Error).                   (* a callback throws *)

(** What the callback passed to [writeFile] does. *)
Inductive WriteCallback :=
| CbLogThenSize (slot : Slot)        (* [if (err) console.log(err); this.#printSize(output, this.outputFiles.slot)] *)
| CbLog                              (* [if (err) console.log(err)] *)
| CbWriteToFile (files : option string) (printSize : bool).
                                     (* [if (err) return console.log(err); if (printSize) this.#printSize(output, files)] *)

(** Work the event loop runs later: a pending I/O operation or promise
    together with the code that continues from it. *)
Inductive Task :=
| TWriteFile (path content : string) (cb : WriteCallback)
| TStat (file : string) (name : option string)
| TResponse (url name : string)
| TMinified (codes : JsObj.t) (output : string)
| TReadStyle (style output : string)
| TProcessed (css style output : string)
| THashed (jsPath cssPath : option string)
| THashedDelayed (jsPath cssPath : option string)
| TAwaitMinify (p : nat) (codes : JsObj.t) (output : string)
| TReadStyleAsync (style output : string)
| TAwaitProcess (css style output : string)
| TAwaitHashJs (p : nat) (jsPath : option string)
| TAwaitHashCss (p : nat) (jsHash : string) (cssPath : option string).

Record Machine := {
  outputFiles : OutputFiles;
  disk : gmap string string;     (* resolved path -> content *)
  locked : gset string;          (* paths [writeFile] fails on *)
  trace : list Event;
  queue : list Task;
  promises : nat                 (* promises handed out by async methods *)
}.

Definition withOutputFiles (o : OutputFiles) (m : Machine) : Machine :=
  {| outputFiles := o; disk := disk m; locked := locked m; trace := trace m;
     queue := queue m; promises := promises m |}.

Definition withDisk (d : gmap string string) (m : Machine) : Machine :=
  {| outputFiles := outputFiles m; disk := d; locked := locked m; trace := trace m;
     queue := queue m; promises := promises m |}.

Definition withQueue (q : list Task) (m : Machine) : Machine :=
  {| outputFiles := outputFiles m; disk := disk m; locked := locked m; trace := trace m;
     queue := q; promises := promises m |}.

Definition emit (e : Event) (m : Machine) : Machine :=
  {| outputFiles := outputFiles m; disk := disk m; locked := locked m;
     trace := trace m ++ [e]; queue := queue m; promises := promises m |}.

Definition enqueue (t : Task) (m : Machine) : Machine :=
  withQueue (queue m ++ [t]) m.

Definition setSlot (s : Slot) (path : string) (m : Machine) : Machine :=
  match s with
  | SlotJs => withOutputFiles {| css := css (outputFiles m); js := Some path |} m
  | SlotCss => withOutputFiles {| css := Some path; js := js (outputFiles m) |} m
  end.

(** A fresh promise for the call of an async method. *)
Definition newPromise (m : Machine) : nat * Machine :=
  (promises m,
   {| outputFiles := outputFiles m; disk := disk m; locked := locked m; trace := trace m;
      queue := queue m; promises := S (promises m) |}).

Definition logTo (ch : Channel) (msg : Message) : Machine -> Machine :=
  emit (EvConsole ch msg).

(** *** Synchronous code: state and exceptions *)

Definition M (A : Type) : Type := Machine -> Completion A * Machine.

Definition ret {A} (a : A) : M A := fun m => (Normal a, m).

Definition throw {A} (e : Error) : M A := fun m => (Throw e, m).

Definition bind {A B} (c : M A) (k : A -> M B) : M B :=
  fun m =>
    match c m with
    | (Normal a, m') => k a m'
    | (Throw e, m') => (Throw e, m')
    end.

Definition effect (f : Machine -> Machine) : M unit := fun m => (Normal tt, f m).

Declare Scope js_scope.
Delimit Scope js_scope with js.
Notation "x <- c ;; k" := (bind c (fun x => k))
  (at level 100, c at next level, right associativity) : js_scope.
Notation "c ;;; k" := (bind c (fun _ => k))
  (at level 100, right associativity) : js_scope.

(** [files.forEach(f)] threading the dictionary the callback fills. *)
Fixpoint forEachM {A S} (f : A -> S -> M S) (l : list A) (acc : S) : M S :=
  match l with
  | [] => ret acc
  | x :: l' => bind (f x acc) (forEachM f l')
  end.

(* ===================================================================== *)
(** ** The file system and the hash of a file *)
(* ===================================================================== *)

Section FileSystem.
Context `{Services}.

(** [readFileSync(path, "utf-8")] *)
Definition readFileSync (path : string) : M string := fun m =>
  let p := path_resolve path in
  match disk m !! p with
  | Some c => (Normal c, emit (EvReadFile p) m)
  | None => (Throw (ENOENT p), emit (EvReadFile p) m)
  end.

Definition dirPrefix (d : string) : string :=
  if JsString.endsWith "/" d then d else d +:+ "/".

Fixpoint upToSlash (s : string) : string :=
  match s with
  | EmptyString => EmptyString
  | String c s' => if Ascii.eqb c JsString.slash then EmptyString else String c (upToSlash s')
  end.

(** The entry of directory [d] that the file at [k] lies under, if any. *)
Definition entryUnder (d k : string) : option string :=
  let pre := dirPrefix d in
  if JsString.startsWith pre k then
    match upToSlash (JsString.skip (String.length pre) k) with
    | EmptyString => None
    | name => Some name
    end
  else None.

(** The immediate entries of a directory: files and sub-directories. *)
Definition dirEntries (d : string) (files : gmap string string) : list string :=
  remove_dups (omap (entryUnder d) (map fst (map_to_list files))).

(** [readdirSync(dir, "utf-8")] *)
Definition readdirSync (dir : string) : M (list string) := fun m =>
  let d := path_resolve dir in
  match dirEntries d (disk m) with
  | [] => (Throw (ENOENT d), emit (EvReadDir d) m)
  | names => (Normal names, emit (EvReadDir d) m)
  end.

(** [stats.size] of [stat(file)]: the length of the content in bytes. *)
Definition statSize (m : Machine) (file : string) : option Z :=
  JsString.len <$> disk m !! path_resolve file.

(** [md5(path)] of the md5-file package: the promise is fulfilled with the
    digest of the file's content and rejected when there is no readable
    file, in particular when the path is [null]. *)
Definition md5File (m : Machine) (path : option string) : Completion string :=
  match path with
  | None => Throw (TypeError "path")
  | Some p =>
      match disk m !! path_resolve p with
      | Some c => Normal (digest c)
      | None => Throw (ENOENT (path_resolve p))
      end
  end.

(** [writeFile(path, content, cb)] carried out: the error handed to the
    callback and the machine after the write. The file is replaced, never
    appended to. *)
Definition performWrite (path content : string) (m : Machine) : option Error * Machine :=
  let p := path_resolve path in
  if decide (p ∈ locked m) then (Some (EWRITE p), emit (EvWriteFailed p) m)
  else (None, emit (EvWrite p content) (withDisk (<[p := content]> (disk m)) m)).

End FileSystem.

(* ===================================================================== *)
(** ** [#printSize]: the size report *)
(* ===================================================================== *)

(** The method is the same text in the three revisions. *)
Module Size.
Import JsString.

Inductive Report :=
| Bytes (n : Z)              (* [`${stats.size} byte`] *)
| Kb (hundredths : Z)        (* [`${round(stats.size / 1024)} Kb`] *)
| Mb (hundredths : Z).       (* [`${round(stats.size / 1048576)} Mb`] *)

(** [round(num / den)], in hundredths.
    [round = (size) => +(Math.round(size + "e+2") + "e-2")] shifts the decimal
    point two places, rounds to the nearest integer with halves going up,
    and shifts back; the quotient by a power of two is exact. *)
Definition round (num den : Z) : Z := (200 * num + den) / (2 * den).

(** The source shifts the decimal point on the shortest decimal text of the
    double [size / den], so its [round] is the exact rounding above as long
    as that text, taken a hundred times, falls on the same side of every
    half as the quotient itself. The quotient of a size below [2^47] by
    [2^20] is below [2^27]: its text is within [2^-27] of it, the reading
    of the shifted text within [2^-19] of a hundred times the quotient, and
    that product, a multiple of [2^-18], is either a half exactly (then the
    text is the quotient, three decimals) or at least [2^-18] away from
    one. From about [2^49] bytes on the two part: a file of 562957255615447
    bytes is reported as 536877875.92 Mb by the source and as 536877875.91
    by [round]. What is stated about the size of a file that the packer did
    not write itself is stated for sizes below this bound. *)
Definition exactBelow : Z := 2 ^ 47.

Definition report (size : Z) : Report :=
  if size <? 1024 then Bytes size
  else if size <? 1048576 then Kb (round size 1024)
  else Mb (round size 1048576).

Definition showZ (n : Z) : string := DecimalString.NilZero.string_of_int (Z.to_int n).

(** A number of hundredths printed as JavaScript prints the number:
    no trailing zeros, no decimal point for an integer. *)
Definition showHundredths (h : Z) : string :=
  let q := h / 100 in
  let r := h mod 100 in
  if r =? 0 then showZ q
  else if r mod 10 =? 0 then showZ q +:+ "." +:+ showZ (r / 10)
  else showZ q +:+ "." +:+ showZ (r / 10) +:+ showZ (r mod 10).

Definition showReport (r : Report) : string :=
  match r with
  | Bytes n => showZ n +:+ " byte"
  | Kb h => showHundredths h +:+ " Kb"
  | Mb h => showHundredths h +:+ " Mb"
  end.

Fixpoint spaces (n : nat) : string :=
  match n with
  | O => EmptyString
  | S n' => String " " (spaces n')
  end.

(** The label: the base name, a colon, and blanks up to a multiple of 8. *)
Definition label (name : string) : string :=
  let name := afterLastSlash name +:+ ":" in
  let md := len name mod 8 in
  let indent := if 0 <? md then 8 - md else 0 in
  name +:+ spaces (Z.to_nat indent).

Definition tab : string := String (ascii_of_nat 9) EmptyString.

(** The line [#printSize] logs for a file of [size] bytes. *)
Definition line (name : string) (size : Z) : string :=
  label name +:+ tab +:+ showReport (report size).

End Size.

Section PrintSize.
Context `{Services}.

(** [#printSize(file, name)]: [stat] is asynchronous, the rest is its
    callback. *)
Definition printSize (file : string) (name : option string) : Machine -> Machine :=
  enqueue (TStat file name).

Definition onStat (file : string) (name : option string) (m : Machine) : Machine :=
  let m := emit (EvStat (path_resolve file)) m in
  match statSize m file with
  | None => logTo Stderr (MsgError (ENOENT (path_resolve file))) m
  | Some size =>
      match name with
      | None => emit (EvUncaught (TypeError "name")) m
      | Some name => logTo Stdout (MsgText (Size.line name size)) m
      end
  end.

(** The callback of [writeFile], after the write was carried out. *)
Definition onWritten (path : string) (err : option Error) (cb : WriteCallback)
    (m : Machine) : Machine :=
  match cb with
  | CbLogThenSize slot =>
      let m := match err with Some e => logTo Stdout (MsgError e) m | None => m end in
      printSize path (slotOf slot (outputFiles m)) m
  | CbLog =>
      match err with Some e => logTo Stdout (MsgError e) m | None => m end
  | CbWriteToFile files size =>
      match err with
      | Some e => logTo Stdout (MsgError e) m
      | None => if size then printSize path files m else m
      end
  end.

Definition onWriteFile (path content : string) (cb : WriteCallback) (m : Machine) : Machine :=
  let '(err, m) := performWrite path content m in
  onWritten path err cb m.

End PrintSize.

(* ===================================================================== *)
(** ** The manifest entries shared by the callback revisions *)
(* ===================================================================== *)

(** One element of the array [Promise.all] resolves to: [{ js: hash }] or
    [{ css: hash }]. *)
Inductive HashResult :=
| ResultJs (hash : string)
| ResultCss (hash : string).

Definition result_js (r : HashResult) : option string :=
  match r with ResultJs h => Some h | ResultCss _ => None end.

Definition result_css (r : HashResult) : option string :=
  match r with ResultCss h => Some h | ResultJs _ => None end.

Definition manifestPath : string := "public/mix-manifest.json".

(** [results.forEach(f)] on the manifest under construction; a throw in the
    callback leaves the loop. *)
Fixpoint forEachResult (f : HashResult -> JsObj.t -> Completion JsObj.t)
    (results : list HashResult) (mix : JsObj.t) : Completion JsObj.t :=
  match results with
  | [] => Normal mix
  | r :: rest =>
      match f r mix with
      | Normal mix' => forEachResult f rest mix'
      | Throw e => Throw e
      end
  end.

(* ===================================================================== *)
(** ** [src/src/letsPack.js]: the callback revision *)
(* ===================================================================== *)

Module Sync.
Section WithServices.
Context `{Services}.
Import JsString.
Local Open Scope js_scope.

(** [#readFiles(files, onFileContent)], with the [cb] of [scripts] that
    stores [codes[name] = content]. *)
Definition readFiles (files : list string) (codes : JsObj.t) : M JsObj.t :=
  forEachM
    (fun fileName codes =>
       content <- readFileSync fileName ;;
       ret (JsObj.set fileName content codes))
    files codes.

(** [#readDirectoryFiles(dirName, onFileContent)] *)
Definition readDirectoryFiles (dirName : string) (codes : JsObj.t) : M JsObj.t :=
  names <- readdirSync dirName ;;
  readFiles (map (fun file => path_join dirName file) names) codes.

(** What [scripts] reads, by the type of its first argument. *)
Definition readSources (source : JsValue) : M JsObj.t :=
  match source with
  | JArray items => readFiles (map path_resolve items) JsObj.empty
  | JString dir => readDirectoryFiles (path_resolve dir) JsObj.empty
  | _ => throw (UsageError "Uknown type for 'scripts'!")
  end.

(** [scripts(scripts, output)] up to its [return this]. *)
Definition scripts (source : JsValue) (output : string) : M unit :=
  effect (setSlot SlotJs output) ;;;
  let output := path_resolve output in
  codes <- readSources source ;;
  effect (enqueue (TMinified codes output)).

(** [minify(codes, terserConfig).then((options) => fs.writeFile(...))] *)
Definition onMinified (codes : JsObj.t) (output : string) (m : Machine) : Machine :=
  match terser_minify codes terserConfig with
  | Normal code => enqueue (TWriteFile output code (CbLogThenSize SlotJs)) m
  | Throw e => emit (EvUnhandled e) m
  end.

(** [styles(style, output)] up to its [return this]. *)
Definition styles (style : JsValue) (output : string) : M unit :=
  effect (setSlot SlotCss output) ;;;
  let output := path_resolve output in
  match style with
  | JString style =>
      let style := path_resolve style in
      effect (enqueue (TReadStyle style output))
  | _ => throw (UsageError "Uknown type for 'styles'!")
  end.

(** The callback of [fs.readFile(style, ...)]. *)
Definition onReadStyle (style output : string) (m : Machine) : Machine :=
  let m := emit (EvReadFile (path_resolve style)) m in
  match disk m !! path_resolve style with
  | None => logTo Stderr (MsgError (ENOENT (path_resolve style))) m
  | Some content => enqueue (TProcessed content style output) m
  end.

(** [postcss([autoprefixer, importer, csso]).process(...).then(...).catch(...)] *)
Definition onProcessed (content style output : string) (m : Machine) : Machine :=
  match postcss_process [autoprefixer; importer; csso] content style output with
  | Normal result => enqueue (TWriteFile output result (CbLogThenSize SlotCss)) m
  | Throw e => logTo Stderr (MsgError e) m
  end.

(** The body of [results.forEach((result) => ...)] in [version]. *)
Definition addEntry (o : OutputFiles) (result : HashResult) (mix : JsObj.t)
    : Completion JsObj.t :=
  match (if truthy (result_js result) then js o else css o) with
  | None => Throw (TypeError "filePath")
  | Some filePath =>
      let filePath :=
        if includes backslash filePath then replaceAll backslash slash filePath
        else filePath in
      let fileName := afterLastSlash filePath in
      if truthy (result_js result) then
        Normal (JsObj.set ("/js/" +:+ fileName)
                  (fileName +:+ "?id=" +:+ template (result_js result)) mix)
      else
        Normal (JsObj.set ("/css/" +:+ fileName)
                  (fileName +:+ "?id=" +:+ template (result_css result)) mix)
  end.

(** [version()]: both hashes are requested, the rest happens in the
    reaction to [Promise.all]. *)
Definition version : M unit := fun m =>
  (Normal tt, enqueue (THashed (js (outputFiles m)) (css (outputFiles m))) m).

(** [Promise.all([js, css]).then((results) => ...)]; the chain has no
    rejection handler. *)
Definition onHashed (jsPath cssPath : option string) (m : Machine) : Machine :=
  match md5File m jsPath, md5File m cssPath with
  | Normal h1, Normal h2 =>
      match forEachResult (addEntry (outputFiles m)) [ResultJs h1; ResultCss h2] JsObj.empty with
      | Normal mix =>
          enqueue (TWriteFile (path_resolve manifestPath) (Json.stringify mix) CbLog) m
      | Throw e => emit (EvUnhandled e) m
      end
  | Throw e, _ => emit (EvUnhandled e) m
  | Normal _, Throw e => emit (EvUnhandled e) m
  end.

End WithServices.
End Sync.

(* ===================================================================== *)
(** ** [part_001], lines 438-673: private fields, URL sources *)
(* ===================================================================== *)

Module Delayed.
Section WithServices.
Context `{Services}.
Import JsString.

(** [#isURL(link)]: [url.protocol ? "https:" === url.protocol : false],
    [false] when the constructor throws. *)
Definition isURL (link : string) : bool :=
  match url_parse link with
  | Some url =>
      if truthy (Some (protocol url)) then String.eqb "https:" (protocol url) else false
  | None => false
  end.

(** The body of [results.forEach((result) => ...)] in [version]. *)
Definition addEntry (o : OutputFiles) (result : HashResult) (mix : JsObj.t)
    : Completion JsObj.t :=
  match (if truthy (result_js result) then js o else css o) with
  | None => Throw (TypeError "filePath")
  | Some filePath =>
      let filePath :=
        if includes backslash filePath then replaceAll backslash slash filePath
        else filePath in
      let fileName := afterLastSlash filePath in
      if truthy (result_js result) then
        Normal (JsObj.set ("/js/" +:+ fileName)
                  ("/js/" +:+ fileName +:+ "?id=" +:+ template (result_js result)) mix)
      else
        Normal (JsObj.set ("/css/" +:+ fileName)
                  ("/css/" +:+ fileName +:+ "?id=" +:+ template (result_css result)) mix)
  end.

Definition version : M unit := fun m =>
  (Normal tt, enqueue (THashedDelayed (js (outputFiles m)) (css (outputFiles m))) m).

Definition onHashed (jsPath cssPath : option string) (m : Machine) : Machine :=
  match md5File m jsPath, md5File m cssPath with
  | Normal h1, Normal h2 =>
      match forEachResult (addEntry (outputFiles m)) [ResultJs h1; ResultCss h2] JsObj.empty with
      | Normal mix =>
          enqueue (TWriteFile (path_resolve manifestPath) (Json.stringifyIndent4 mix) CbLog) m
      | Throw e => emit (EvUnhandled e) m
      end
  | Throw e, _ => emit (EvUnhandled e) m
  | Normal _, Throw e => emit (EvUnhandled e) m
  end.

End WithServices.
End Delayed.

(* ===================================================================== *)
(** ** [part_001], lines 193-437: the [async] revision *)
(* ===================================================================== *)

Module Async.
Section WithServices.
Context `{Services}.
Import JsString.
Local Open Scope js_scope.

(** [#isURL(link)]: [!!url.protocol && "https:" === url.protocol], [false]
    when the constructor throws. *)
Definition isURL (link : string) : bool :=
  match url_parse link with
  | Some url => truthy (Some (protocol url)) && String.eqb "https:" (protocol url)
  | None => false
  end.

(** [#download(file, onFileContent)]: the request is issued at once, the
    body arrives in a later turn of the event loop. *)
Definition download (file : string) : M unit :=
  let name := substring file (lastIndexOf slash file + 1) in
  effect (emit (EvGet file)) ;;;
  effect (enqueue (TResponse file name)).

(** The callback of [files.forEach] in [#readFiles]. *)
Definition readEntry (file : string) (codes : JsObj.t) : M JsObj.t :=
  if isURL file then
    download file ;;; ret codes
  else
    content <- readFileSync file ;;
    ret (JsObj.set (path_resolve file) content codes).

(** [#readFiles(files, onFileContent)] *)
Definition readFiles (files : list string) (codes : JsObj.t) : M JsObj.t :=
  forEachM readEntry files codes.

(** [#readDirectoryFiles(dirName, onFileContent)] *)
Definition readDirectoryFiles (dirName : string) (codes : JsObj.t) : M JsObj.t :=
  names <- readdirSync dirName ;;
  readFiles (map (fun file => path_join dirName file) names) codes.

(** The end of the response: [onFileContent(name, content)] stores into the
    [codes] object of a call whose [minify(codes, ...)] has already been
    made; nothing the machine tracks changes. *)
Definition onResponse (url name : string) (m : Machine) : Machine := m.

(** [#writeToFile(output, result, files, printSize = true)] *)
Definition writeToFile (output result : string) (files : option string) (size : bool)
    : Machine -> Machine :=
  enqueue (TWriteFile output result (CbWriteToFile files size)).

(** An [async] method returns a promise at once; a throw in its body
    rejects that promise. *)
Definition async (body : nat -> M unit) (m : Machine) : nat * Machine :=
  let '(p, m) := newPromise m in
  match body p m with
  | (Normal _, m') => (p, m')
  | (Throw e, m') => (p, emit (EvSettled p (Throw e)) m')
  end.

Definition settle (p : nat) (r : Completion unit) : Machine -> Machine :=
  emit (EvSettled p r).

(** The body of [scripts] up to [await minify(codes, terserConfig)]. *)
Definition scriptsBody (source : JsValue) (output : string) (p : nat) : M unit :=
  effect (setSlot SlotJs output) ;;;
  let output := path_resolve output in
  codes <- match source with
           | JArray items => readFiles items JsObj.empty
           | JString dir => readDirectoryFiles (path_resolve dir) JsObj.empty
           | _ => throw (UsageError "Uknown type for 'scripts'!")
           end ;;
  effect (enqueue (TAwaitMinify p codes output)).

Definition scripts (source : JsValue) (output : string) : Machine -> nat * Machine :=
  async (scriptsBody source output).

(** The body of [scripts] after the [await]:
    [this.#writeToFile(output, options.code, this.#outputFiles.js); return this]. *)
Definition onAwaitMinify (p : nat) (codes : JsObj.t) (output : string) (m : Machine)
    : Machine :=
  match terser_minify codes terserConfig with
  | Throw e => settle p (Throw e) m
  | Normal code =>
      let m := writeToFile output code (js (outputFiles m)) true m in
      settle p (Normal tt) m
  end.

(** The body of [styles]; there is no [await] in it, so the promise is
    fulfilled when the body returns. *)
Definition stylesBody (style : JsValue) (output : string) (p : nat) : M unit :=
  match style with
  | JString style =>
      effect (setSlot SlotCss output) ;;;
      let output := path_resolve output in
      let style := path_resolve style in
      effect (enqueue (TReadStyleAsync style output)) ;;;
      effect (settle p (Normal tt))
  | _ => throw (UsageError "Uknown type for 'styles'!")
  end.

Definition styles (style : JsValue) (output : string) : Machine -> nat * Machine :=
  async (stylesBody style output).

(** The callback of [readFile(style, async (err, css) => ...)] up to its
    [await]. *)
Definition onReadStyle (style output : string) (m : Machine) : Machine :=
  let m := emit (EvReadFile (path_resolve style)) m in
  match disk m !! path_resolve style with
  | None => logTo Stderr (MsgError (ENOENT (path_resolve style))) m
  | Some content => enqueue (TAwaitProcess content style output) m
  end.

(** The rest of the [try] block and its [catch]. *)
Definition onAwaitProcess (content style output : string) (m : Machine) : Machine :=
  match postcss_process [autoprefixer; importer; csso] content style output with
  | Normal result => writeToFile output result (css (outputFiles m)) true m
  | Throw e => logTo Stderr (MsgError e) m
  end.

(** [processFile(filePath)] inside [version], with the two hashes in scope. *)
Definition processFile (jsHash cssHash : string) (filePath : option string)
    (mix : JsObj.t) : Completion JsObj.t :=
  match filePath with
  | None => Throw (TypeError "filePath")
  | Some filePath =>
      let filePath :=
        if includes backslash filePath then replaceAll backslash slash filePath
        else filePath in
      let fileName := substring filePath (lastIndexOf slash filePath + 1) in
      if endsWith ".js" fileName then
        Normal (JsObj.set ("/js/" +:+ fileName) ("/js/" +:+ fileName +:+ "?id=" +:+ jsHash) mix)
      else
        Normal (JsObj.set ("/css/" +:+ fileName) ("/css/" +:+ fileName +:+ "?id=" +:+ cssHash) mix)
  end.

(** [version()] up to [await md5(this.#outputFiles.js)]. *)
Definition versionBody (p : nat) : M unit := fun m =>
  (Normal tt, enqueue (TAwaitHashJs p (js (outputFiles m))) m).

Definition version : Machine -> nat * Machine := async versionBody.

(** From the first [await] to [await md5(this.#outputFiles.css)]. *)
Definition onAwaitHashJs (p : nat) (jsPath : option string) (m : Machine) : Machine :=
  match md5File m jsPath with
  | Throw e => settle p (Throw e) m
  | Normal h => enqueue (TAwaitHashCss p h (css (outputFiles m))) m
  end.

(** The rest of [version]. *)
Definition onAwaitHashCss (p : nat) (jsHash : string) (cssPath : option string)
    (m : Machine) : Machine :=
  match md5File m cssPath with
  | Throw e => settle p (Throw e) m
  | Normal cssHash =>
      let o := outputFiles m in
      match processFile jsHash cssHash (js o) JsObj.empty with
      | Throw e => settle p (Throw e) m
      | Normal mix =>
          match processFile jsHash cssHash (css o) mix with
          | Throw e => settle p (Throw e) m
          | Normal mix =>
              let m := writeToFile (path_resolve manifestPath)
                         (Json.stringifyIndent4 mix) None false m in
              settle p (Normal tt) m
          end
      end
  end.

End WithServices.
End Async.

(* ===================================================================== *)
(** ** The event loop *)
(* ===================================================================== *)

Section EventLoop.
Context `{Services}.

(** Running one task to completion. *)
Definition complete (t : Task) (m : Machine) : Machine :=
  match t with
  | TWriteFile path content cb => onWriteFile path content cb m
  | TStat file name => onStat file name m
  | TResponse url name => Async.onResponse url name m
  | TMinified codes output => Sync.onMinified codes output m
  | TReadStyle style output => Sync.onReadStyle style output m
  | TProcessed content style output => Sync.onProcessed content style output m
  | THashed jsPath cssPath => Sync.onHashed jsPath cssPath m
  | THashedDelayed jsPath cssPath => Delayed.onHashed jsPath cssPath m
  | TAwaitMinify p codes output => Async.onAwaitMinify p codes output m
  | TReadStyleAsync style output => Async.onReadStyle style output m
  | TAwaitProcess content style output => Async.onAwaitProcess content style output m
  | TAwaitHashJs p jsPath => Async.onAwaitHashJs p jsPath m
  | TAwaitHashCss p jsHash cssPath => Async.onAwaitHashCss p jsHash cssPath m
  end.

(** One turn: the oldest task leaves the queue and runs. *)
Definition step (m : Machine) : Machine :=
  match queue m with
  | [] => m
  | t :: rest => complete t (withQueue rest m)
  end.

(** [n] turns; an empty queue stays empty. *)
Fixpoint run (n : nat) (m : Machine) : Machine :=
  match n with
  | O => m
  | S n' => run n' (step m)
  end.

End EventLoop.

(* ===================================================================== *)
(** ** Vocabulary of the properties *)
(* ===================================================================== *)

(** [Array.isArray(v)] and [typeof v === "string"] both fail. *)
Definition notArrayOrString (v : JsValue) : bool :=
  match v with
  | JArray _ | JString _ => false
  | _ => true
  end.

(** [typeof v !== "string"] *)
Definition notString (v : JsValue) : bool :=
  match v with
  | JString _ => false
  | _ => true
  end.

(** The base name of a recorded path: every backslash becomes a slash, then
    the text after the last slash is kept. *)
Definition baseName (path : string) : string :=
  JsString.afterLastSlash (JsString.replaceAll JsString.backslash JsString.slash path).

(** Something was printed with [console.log] or [console.error]. *)
Definition consoleUsed (events : list Event) : Prop :=
  exists ch msg, In (EvConsole ch msg) events.



Definition isResponse (t : Task) : bool :=
  match t with TResponse _ _ => true | _ => false end.

(** Reads and requests: the events the source readers produce. *)
Definition isReadEvent (e : Event) : bool :=
  match e with EvReadFile _ | EvReadDir _ | EvGet _ => true | _ => false end.

(** [m'] is [m] after reads and requests only: the registry and the disk are
    the same, the new events are reads and requests, and only responses were
    queued. *)
Definition grows (m m' : Machine) : Prop :=
  outputFiles m' = outputFiles m /\ disk m' = disk m /\ locked m' = locked m
  /\ promises m' = promises m
  /\ exists evs ts, trace m' = trace m ++ evs /\ queue m' = queue m ++ ts
                   /\ forallb isReadEvent evs = true /\ forallb isResponse ts = true.

(** Between [m] and [m'] a write of [content] to [path] was completed. *)
Definition wrote (path content : string) (m m' : Machine) : Prop :=
  exists evs, trace m' = trace m ++ evs /\ In (EvWrite path content) evs.

Section Vocabulary.
Context `{Services}.

(** What [scripts] of the callback revision would write on [m]: the
    minified text of what it reads, if reading and minifying succeed. *)
Definition scriptsOutcome (source : JsValue) (m : Machine) : option string :=
  match fst (Sync.readSources source m) with
  | Normal codes =>
      match terser_minify codes terserConfig with
      | Normal code => Some code
      | Throw _ => None
      end
  | Throw _ => None
  end.

(** What [styles] of the callback revision would write on [m]. *)
Definition stylesOutcome (style : JsValue) (output : string) (m : Machine) : option string :=
  match style with
  | JString s =>
      match disk m !! path_resolve s with
      | Some content =>
          match postcss_process [autoprefixer; importer; csso] content
                  (path_resolve s) (path_resolve output) with
          | Normal result => Some result
          | Throw _ => None
          end
      | None => None
      end
  | _ => None
  end.

(** [s'] is [s] after a pipeline that ends in the write of [result] to
    [out], or in no write when [result] is [None]. *)
Definition outcomeOf (out : string) (result : option string) (s s' : Machine) : Prop :=
  queue s' = [] /\ locked s' = locked s
  /\ disk s' = match result with
               | Some code =>
                   if decide (path_resolve out ∈ locked s) then disk s
                   else <[path_resolve out := code]> (disk s)
               | None => disk s
               end
  /\ exists evs, trace s' = trace s ++ evs
       /\ forall p c, In (EvWrite p c) evs
                      <-> (result = Some c /\ p = path_resolve out
                           /\ path_resolve out ∉ locked s).

(** A registry slot is unset, or the file it names is not there. *)
Definition outputMissing (m : Machine) (slot : option string) : Prop :=
  match slot with
  | None => True
  | Some p => disk m !! path_resolve p = None
  end.

(** [scripts(source, output)] of the callback revision and the turns of
    the event loop it needs: minify, write, stat. *)
Definition runScripts (source : JsValue) (output : string) (m : Machine) : Machine :=
  run 3 (snd (Sync.scripts source output m)).

(** [styles(style, output)] of the callback revision and its turns: read,
    transform, write, stat. *)
Definition runStyles (style : JsValue) (output : string) (m : Machine) : Machine :=
  run 4 (snd (Sync.styles style output m)).

End Vocabulary.

(* ===================================================================== *)
(** ** A concrete instance of the services, for running the model *)
(* ===================================================================== *)

Module Demo.
Import JsString.

(** Relative paths are taken from [/w]. *)
Definition resolve (p : string) : string :=
  if startsWith "/" p then p else "/w/" +:+ p.

Definition resolve_idem (p : string) : resolve (resolve p) = resolve p.
Proof.
  unfold resolve. destruct (startsWith "/" p) eqn:E.
  - rewrite E. reflexivity.
  - reflexivity.
Qed.

Definition join (d f : string) : string := d +:+ "/" +:+ f.

Definition hash (content : string) : string := "h" +:+ content.

Definition hash_nonempty (c : string) : hash c <> EmptyString.
Proof. discriminate. Qed.

Fixpoint concat (o : JsObj.t) : string :=
  match o with
  | [] => EmptyString
  | (_, v) :: o' => v +:+ concat o'
  end.

(** Recognises [https://host...] and [http://host...] only. *)
Definition parse (link : string) : option URL :=
  if startsWith "https://" link && negb (String.eqb link "https://") then
    Some {| protocol := "https:" |}
  else if startsWith "http://" link && negb (String.eqb link "http://") then
    Some {| protocol := "http:" |}
  else None.

#[export] Instance services : Services := {|
  path_resolve := resolve;
  path_resolve_idem := resolve_idem;
  path_join := join;
  digest := hash;
  digest_nonempty := hash_nonempty;
  terser_minify := fun codes _ => Normal (concat codes);
  postcss_process := fun _ content _ _ => Normal content;
  url_parse := parse
|}.

Definition machine (o : OutputFiles) (files : list (string * string)) : Machine :=
  {| outputFiles := o; disk := list_to_map files; locked := ∅; trace := []; queue := [];
     promises := 0 |}.


(** A machine on which [writeFile] fails on the paths in [paths]. *)
Definition lockedMachine (o : OutputFiles) (files : list (string * string))
    (paths : list string) : Machine :=
  {| outputFiles := o; disk := list_to_map files; locked := list_to_set paths; trace := [];
     queue := []; promises := 0 |}.

End Demo.

(* ===================================================================== *)
(** ** The final path segment of a URL *)
(* ===================================================================== *)

(** What the specification calls the logical name of a download: the final
    segment of the path of the URL. In [scheme://authority/path?query#fragment]
    the path lies between the authority and the first [?] or [#]; its final
    segment is what follows its last slash, and is empty for a URL without
    a path. Written from these words, to be compared with the name
    [#download] computes. *)
Module UrlSpec.
Import JsString.

Definition isQueryOrFragment (c : ascii) : bool :=
  Ascii.eqb c "?" || Ascii.eqb c "#".

(** The text before the first character that [stop] accepts. *)
Fixpoint before (stop : ascii -> bool) (s : string) : string :=
  match s with
  | EmptyString => EmptyString
  | String c rest => if stop c then EmptyString else String c (before stop rest)
  end.

(** The text from the first character that [stop] accepts. *)
Fixpoint from (stop : ascii -> bool) (s : string) : string :=
  match s with
  | EmptyString => EmptyString
  | String c rest => if stop c then s else from stop rest
  end.

(** What follows [scheme://]. *)
Fixpoint afterScheme (s : string) : string :=
  match s with
  | EmptyString => EmptyString
  | String c rest => if startsWith "://" s then skip 3 s else afterScheme rest
  end.

Definition pathname (link : string) : string :=
  from (Ascii.eqb slash) (before isQueryOrFragment (afterScheme link)).

Definition finalPathSegment (link : string) : string :=
  afterLastSlash (pathname link).

End UrlSpec.

(* ===================================================================== *)
(** ** Strings: the base name *)
(* ===================================================================== *)

Section StringFacts.
Import JsString.

Lemma append_cons (a : ascii) (s t : string) : String a s +:+ t = String a (s +:+ t).
Proof. reflexivity. Qed.

Lemma includes_replaceAll (a b : ascii) (s : string) :
  includes a s = false -> replaceAll a b s = s.
Proof.
  induction s as [|x s IH]; simpl; [reflexivity|].
  destruct (Ascii.eqb x a); [discriminate|].
  intros Hs. rewrite (IH Hs). reflexivity.
Qed.

(** The guard [if (filePath.includes("\\"))] changes nothing: replacing
    every backslash of a path that has none is the identity. *)
Lemma guarded_replaceAll (s : string) :
  (if includes backslash s then replaceAll backslash slash s else s)
  = replaceAll backslash slash s.
Proof.
  destruct (includes backslash s) eqn:E; [reflexivity|].
  symmetry. apply includes_replaceAll. exact E.
Qed.

Lemma replaceAll_clean (a b : ascii) (s : string) :
  a <> b -> includes a (replaceAll a b s) = false.
Proof.
  intros Hab. induction s as [|x s IH]; simpl; [reflexivity|].
  destruct (Ascii.eqb x a) eqn:E.
  - destruct (Ascii.eqb b a) eqn:E'; [|exact IH].
    apply Ascii.eqb_eq in E'. congruence.
  - rewrite E. exact IH.
Qed.

Lemma includes_skip (c : ascii) (n : nat) (s : string) :
  includes c s = false -> includes c (skip n s) = false.
Proof.
  revert s. induction n as [|n IH]; intros s; [tauto|].
  destruct s as [|x s]; simpl; [tauto|].
  destruct (Ascii.eqb x c); [discriminate|]. apply IH.
Qed.

(** Where [lastIndexOf_from] points: either nothing was found in [s], or
    the result is an index into [s] whose tail holds no further [c]. *)
Lemma lastIndexOf_from_spec (c : ascii) (s : string) (i found : Z) :
  found < i ->
  let r := lastIndexOf_from c s i found in
  (r = found /\ includes c s = false)
  \/ (i <= r /\ includes c (skip (Z.to_nat (r - i + 1)) s) = false
      /\ exists pre, s = pre +:+ String c (skip (Z.to_nat (r - i + 1)) s)).
Proof.
  revert i found. induction s as [|x s IH]; intros i found Hlt; simpl.
  - left. split; reflexivity.
  - destruct (Ascii.eqb x c) eqn:E.
    + apply Ascii.eqb_eq in E. subst x.
      destruct (IH (i + 1) i ltac:(lia)) as [[Hr Hno]|(Hle & Hno & pre & Hpre)].
      * right. rewrite Hr. split; [lia|].
        replace (Z.to_nat (i - i + 1)) with 1%nat by lia. simpl.
        split; [exact Hno|]. exists EmptyString. reflexivity.
      * right. split; [lia|].
        replace (Z.to_nat (lastIndexOf_from c s (i + 1) i - i + 1))
          with (S (Z.to_nat (lastIndexOf_from c s (i + 1) i - (i + 1) + 1))) by lia.
        simpl. split; [exact Hno|].
        exists (String c pre). rewrite append_cons. congruence.
    + destruct (IH (i + 1) found ltac:(lia)) as [[Hr Hno]|(Hle & Hno & pre & Hpre)].
      * left. split; [exact Hr|exact Hno].
      * right. split; [lia|].
        replace (Z.to_nat (lastIndexOf_from c s (i + 1) found - i + 1))
          with (S (Z.to_nat (lastIndexOf_from c s (i + 1) found - (i + 1) + 1))) by lia.
        simpl. split; [exact Hno|].
        exists (String x pre). rewrite append_cons. congruence.
Qed.

(** The text after the last slash holds no slash, and the path is a
    directory part followed by it. *)
Lemma afterLastSlash_spec (p : string) :
  includes slash (afterLastSlash p) = false
  /\ exists dir, p = dir +:+ afterLastSlash p.
Proof.
  unfold afterLastSlash, lastIndexOf, substring.
  destruct (lastIndexOf_from_spec slash p 0 (-1) ltac:(lia)) as [[Hr Hno]|(Hle & Hno & pre & Hpre)].
  - rewrite Hr. simpl. split; [exact Hno|]. exists EmptyString. reflexivity.
  - replace (lastIndexOf_from slash p 0 (-1) + 1)
      with (lastIndexOf_from slash p 0 (-1) - 0 + 1) by lia.
    split; [exact Hno|].
    exists (pre +:+ String slash EmptyString).
    rewrite Hpre at 1. clear. induction pre as [|x pre IH]; [reflexivity|].
    rewrite !append_cons. f_equal. exact IH.
Qed.

(** The base name of a recorded path holds neither a slash nor a
    backslash. *)
Lemma baseName_clean (p : string) :
  includes slash (baseName p) = false /\ includes backslash (baseName p) = false.
Proof.
  unfold baseName. split.
  - apply afterLastSlash_spec.
  - unfold afterLastSlash, substring. apply includes_skip.
    apply replaceAll_clean. discriminate.
Qed.

Example baseName_windows : baseName "dist\sub\app.min.js" = "app.min.js".
Proof. reflexivity. Qed.

Example baseName_plain : baseName "app.min.css" = "app.min.css".
Proof. reflexivity. Qed.

Example label_pads_to_8 : Size.label "./dist/app.min.js" = "app.min.js:     ".
Proof. reflexivity. Qed.

Example report_1536 : Size.showReport (Size.report 1536) = "1.5 Kb".
Proof. reflexivity. Qed.

Example report_1029 : Size.showReport (Size.report 1029) = "1 Kb".
Proof. reflexivity. Qed.

Example report_1030 : Size.showReport (Size.report 1030) = "1.01 Kb".
Proof. reflexivity. Qed.

End StringFacts.

(* ===================================================================== *)
(** ** The event loop: frame facts *)
(* ===================================================================== *)

Section LoopFacts.
Context `{Services}.

Lemma run_quiescent (n : nat) (m : Machine) : queue m = [] -> run n m = m.
Proof.
  intros Hq. induction n as [|n IH]; [reflexivity|].
  simpl. unfold step. rewrite Hq. exact IH.
Qed.


Lemma outputFiles_onWriteFile path content cb m :
  outputFiles (onWriteFile path content cb m) = outputFiles m.
Proof.
  unfold onWriteFile, performWrite, onWritten, printSize.
  destruct (decide (path_resolve path ∈ locked m)); destruct cb as [slot| |files size];
    try destruct size; reflexivity.
Qed.

(** No task writes the registry: only the synchronous part of [scripts]
    and [styles] does. *)
Lemma outputFiles_complete (t : Task) (m : Machine) :
  outputFiles (complete t m) = outputFiles m.
Proof.
  destruct t; simpl.
  - apply outputFiles_onWriteFile.
  - unfold onStat, statSize. simpl.
    destruct (disk m !! path_resolve file); simpl; [destruct name|]; reflexivity.
  - reflexivity.
  - unfold Sync.onMinified. destruct (terser_minify _ _); reflexivity.
  - unfold Sync.onReadStyle. simpl. destruct (disk m !! _); reflexivity.
  - unfold Sync.onProcessed. destruct (postcss_process _ _ _ _); reflexivity.
  - unfold Sync.onHashed.
    destruct (md5File m jsPath); [destruct (md5File m cssPath)|]; try reflexivity.
    destruct (forEachResult _ _ _); reflexivity.
  - unfold Delayed.onHashed.
    destruct (md5File m jsPath); [destruct (md5File m cssPath)|]; try reflexivity.
    destruct (forEachResult _ _ _); reflexivity.
  - unfold Async.onAwaitMinify. destruct (terser_minify _ _); reflexivity.
  - unfold Async.onReadStyle. simpl. destruct (disk m !! _); reflexivity.
  - unfold Async.onAwaitProcess. destruct (postcss_process _ _ _ _); reflexivity.
  - unfold Async.onAwaitHashJs. destruct (md5File m jsPath); reflexivity.
  - unfold Async.onAwaitHashCss. destruct (md5File m cssPath); [|reflexivity].
    destruct (Async.processFile _ _ (js _) _); [|reflexivity].
    destruct (Async.processFile _ _ (css _) _); reflexivity.
Qed.

Lemma outputFiles_step (m : Machine) : outputFiles (step m) = outputFiles m.
Proof.
  unfold step. destruct (queue m) as [|t rest]; [reflexivity|].
  rewrite outputFiles_complete. reflexivity.
Qed.

Lemma outputFiles_run (n : nat) (m : Machine) : outputFiles (run n m) = outputFiles m.
Proof.
  revert m. induction n as [|n IH]; intros m; [reflexivity|].
  simpl. rewrite IH. apply outputFiles_step.
Qed.

End LoopFacts.

(* ===================================================================== *)
(** ** Properties of the registry, the usage errors and the URL test *)
(* ===================================================================== *)

Section RegistryAndUsage.
Context `{Services}.

(** C9. [version] leaves both slots of the registry as they are, in the
    callback revision and in the async one, however many turns of the event
    loop follow and whether hashing and the manifest write succeed or
    fail. *)
Theorem version_keeps_registry (m : Machine) (n : nat) :
  outputFiles (snd (Sync.version m)) = outputFiles m
  /\ outputFiles (run n (snd (Sync.version m))) = outputFiles m
  /\ outputFiles (snd (Async.version m)) = outputFiles m
  /\ outputFiles (run n (snd (Async.version m))) = outputFiles m.
Proof.
  assert (Hs : outputFiles (snd (Sync.version m)) = outputFiles m) by reflexivity.
  assert (Ha : outputFiles (snd (Async.version m)) = outputFiles m) by reflexivity.
  repeat split; try assumption.
  - rewrite outputFiles_run. exact Hs.
  - rewrite outputFiles_run. exact Ha.
Qed.

(** C10. The URL test answers for every string, [false] when the [URL]
    constructor throws, and [true] exactly when the string parses as a URL
    whose protocol is [https:]; so in both revisions that have it. *)
Theorem isURL_total_https (link : string) :
  (Async.isURL link = true <-> exists u, url_parse link = Some u /\ protocol u = "https:")
  /\ (Delayed.isURL link = true <-> exists u, url_parse link = Some u /\ protocol u = "https:")
  /\ (url_parse link = None -> Async.isURL link = false /\ Delayed.isURL link = false).
Proof.
  unfold Async.isURL, Delayed.isURL.
  destruct (url_parse link) as [[proto]|]; simpl.
  - assert (Heq : String.eqb "https:" proto = true <-> proto = "https:").
    { rewrite String.eqb_eq. split; congruence. }
    repeat split.
    + intros Ht. apply andb_true_iff in Ht as [_ Ht].
      exists {| protocol := proto |}. split; [reflexivity|]. simpl. apply Heq, Ht.
    + intros (u & Hu & Hp). injection Hu as <-. simpl in Hp. subst proto. reflexivity.
    + intros Ht. destruct proto as [|c proto]; [discriminate|].
      exists {| protocol := String c proto |}. split; [reflexivity|]. simpl. apply Heq, Ht.
    + intros (u & Hu & Hp). injection Hu as <-. simpl in Hp. subst proto. reflexivity.
    + discriminate.
    + discriminate.
  - repeat split; try discriminate; try (intros (u & Hu & _); discriminate).
Qed.

(** C5. When the source argument of [scripts] is neither an array nor a
    string, the call throws the usage error at once: nothing was read,
    requested or logged, nothing was queued for the event loop, and the
    disk is as it was. *)
Theorem scripts_usage_error_sync (v : JsValue) (output : string) (m : Machine) :
  notArrayOrString v = true ->
  Sync.scripts v output m
    = (Throw (UsageError "Uknown type for 'scripts'!"), setSlot SlotJs output m)
  /\ trace (snd (Sync.scripts v output m)) = trace m
  /\ queue (snd (Sync.scripts v output m)) = queue m
  /\ disk (snd (Sync.scripts v output m)) = disk m.
Proof.
  intros Hv. destruct v; try discriminate; repeat split; reflexivity.
Qed.

(** C8. When [scripts] throws the usage error, the script slot of the
    registry already holds the output path given, so a registry that held
    something else has changed; [styles] does the same to the style slot. *)
Theorem usage_error_sets_registry (v : JsValue) (output : string) (m : Machine) :
  (notArrayOrString v = true ->
     fst (Sync.scripts v output m) = Throw (UsageError "Uknown type for 'scripts'!")
     /\ js (outputFiles (snd (Sync.scripts v output m))) = Some output
     /\ css (outputFiles (snd (Sync.scripts v output m))) = css (outputFiles m)
     /\ (js (outputFiles m) <> Some output ->
         outputFiles (snd (Sync.scripts v output m)) <> outputFiles m))
  /\ (notString v = true ->
     fst (Sync.styles v output m) = Throw (UsageError "Uknown type for 'styles'!")
     /\ css (outputFiles (snd (Sync.styles v output m))) = Some output
     /\ js (outputFiles (snd (Sync.styles v output m))) = js (outputFiles m)
     /\ (css (outputFiles m) <> Some output ->
         outputFiles (snd (Sync.styles v output m)) <> outputFiles m)).
Proof.
  split; intros Hv; destruct v; try discriminate;
    (repeat split; try reflexivity; intros Hne Heq; apply Hne; rewrite <- Heq; reflexivity).
Qed.

(** X19. The async revision, for comparison: the same argument makes the promise
    returned by [scripts] reject, and [styles] tests the type before it
    touches the registry. *)
Lemma async_usage_errors (v : JsValue) (output : string) (m : Machine) :
  (notArrayOrString v = true ->
     Async.scripts v output m
     = (promises m,
        emit (EvSettled (promises m) (Throw (UsageError "Uknown type for 'scripts'!")))
          (setSlot SlotJs output (snd (newPromise m)))))
  /\ (notString v = true ->
     Async.styles v output m
     = (promises m,
        emit (EvSettled (promises m) (Throw (UsageError "Uknown type for 'styles'!")))
          (snd (newPromise m)))).
Proof.
  split; intros Hv; destruct v; try discriminate; reflexivity.
Qed.

End RegistryAndUsage.

(* ===================================================================== *)
(** ** The size report *)
(* ===================================================================== *)

Section SizeReport.
Context `{Services}.



End SizeReport.

(* ===================================================================== *)
(** ** The manifest *)
(* ===================================================================== *)

Section Manifest.
Context `{Services}.
Import JsString.

Lemma truthy_digest (c : string) : truthy (Some (digest c)) = true.
Proof.
  destruct (digest c) eqn:E; [|reflexivity].
  exfalso. exact (digest_nonempty c E).
Qed.

(** The manifest object the callback revision builds from two hashes. *)
Lemma sync_mix (o : OutputFiles) (jsPath cssPath h1 h2 : string) :
  js o = Some jsPath -> css o = Some cssPath -> truthy (Some h1) = true ->
  forEachResult (Sync.addEntry o) [ResultJs h1; ResultCss h2] JsObj.empty
  = Normal [("/js/" +:+ baseName jsPath, baseName jsPath +:+ "?id=" +:+ h1);
            ("/css/" +:+ baseName cssPath, baseName cssPath +:+ "?id=" +:+ h2)].
Proof.
  intros Hjs Hcss Ht. unfold forEachResult, Sync.addEntry. simpl result_js.
  rewrite Ht, Hjs, guarded_replaceAll. simpl truthy. rewrite Hcss, guarded_replaceAll.
  reflexivity.
Qed.


Lemma write_unlocked (path content : string) (m : Machine) :
  path_resolve path ∉ locked m ->
  onWriteFile (path_resolve path) content CbLog m
  = emit (EvWrite (path_resolve path) content)
      (withDisk (<[path_resolve path := content]> (disk m)) m).
Proof.
  intros Hfree. unfold onWriteFile, performWrite. rewrite path_resolve_idem.
  destruct (decide (path_resolve path ∈ locked m)); [contradiction|reflexivity].
Qed.

(** With both slots set and both outputs on disk, [version] of the
    callback revision replaces the manifest file in two turns; the values
    are the base name and the hash, without the directory. *)
Lemma sync_version_manifest (m : Machine) (jsPath cssPath c1 c2 : string) :
  queue m = [] ->
  js (outputFiles m) = Some jsPath -> css (outputFiles m) = Some cssPath ->
  disk m !! path_resolve jsPath = Some c1 -> disk m !! path_resolve cssPath = Some c2 ->
  path_resolve manifestPath ∉ locked m ->
  let json := Json.stringify
    [("/js/" +:+ baseName jsPath, baseName jsPath +:+ "?id=" +:+ digest c1);
     ("/css/" +:+ baseName cssPath, baseName cssPath +:+ "?id=" +:+ digest c2)] in
  run 2 (snd (Sync.version m))
  = emit (EvWrite (path_resolve manifestPath) json)
      (withDisk (<[path_resolve manifestPath := json]> (disk m)) m).
Proof.
  intros Hq Hjs Hcss H1 H2 Hfree json.
  assert (Hstep : step (snd (Sync.version m))
                  = enqueue (TWriteFile (path_resolve manifestPath) json CbLog) m).
  { destruct m as [o d l tr q pr]. simpl in *. subst q.
    unfold step, Sync.version, enqueue, withQueue.
    cbn [snd queue app complete outputFiles disk js css].
    unfold Sync.onHashed, md5File. cbn [disk outputFiles].
    rewrite Hjs, Hcss, H1, H2.
    rewrite (sync_mix o jsPath cssPath) by (try assumption; apply truthy_digest).
    reflexivity. }
  change (run 2 (snd (Sync.version m))) with (step (step (snd (Sync.version m)))).
  rewrite Hstep. destruct m as [o d l tr q pr]. simpl in *. subst q.
  unfold step. simpl. rewrite write_unlocked by exact Hfree. reflexivity.
Qed.


End Manifest.

Section ManifestOnDemo.
Local Existing Instance Demo.services.

(** C1, on [src/src/letsPack.js]. With the outputs [dist/app.min.js] and
    [dist/app.min.css] recorded and on disk, hashes [hJS] and [hCSS], the
    manifest [version] writes maps [/js/app.min.js] to [app.min.js?id=hJS]
    and [/css/app.min.css] to [app.min.css?id=hCSS]: the values lack the
    [/js/] and [/css/] directory the claim gives them. The revision in
    [part_001], lines 556-585, run on the same machine, writes exactly the
    claimed mapping. *)
Theorem sync_version_drops_prefix :
  let m := Demo.machine {| css := Some "dist/app.min.css"; js := Some "dist/app.min.js" |}
             [("/w/dist/app.min.js", "JS"); ("/w/dist/app.min.css", "CSS")] in
  let claimed := [("/js/app.min.js", "/js/app.min.js?id=hJS");
                  ("/css/app.min.css", "/css/app.min.css?id=hCSS")] in
  let written := [("/js/app.min.js", "app.min.js?id=hJS");
                  ("/css/app.min.css", "app.min.css?id=hCSS")] in
  md5File m (Some "dist/app.min.js") = Normal "hJS"
  /\ md5File m (Some "dist/app.min.css") = Normal "hCSS"
  /\ disk (run 2 (snd (Sync.version m))) !! "/w/public/mix-manifest.json"
     = Some (Json.stringify written)
  /\ written <> claimed
  /\ disk (run 2 (snd (Delayed.version m))) !! "/w/public/mix-manifest.json"
     = Some (Json.stringifyIndent4 claimed).
Proof.
  repeat split; try (vm_compute; reflexivity). discriminate.
Qed.

End ManifestOnDemo.

(* ===================================================================== *)
(** ** [version] without its outputs *)
(* ===================================================================== *)

Section VersionFailure.
Context `{Services}.

Lemma md5File_missing (m m' : Machine) (slot : option string) :
outputMissing m slot -> disk m' = disk m -> forall h, md5File m' slot <> Normal h.
Proof.
intros Hmiss Hd h. unfold md5File. rewrite Hd.
destruct slot as [p|]; simpl in Hmiss; [rewrite Hmiss|]; discriminate.
Qed.

(** C3, as the code has it. When a slot of the registry is unset or the
    file it names is absent, [version] does not throw; the failure of the
    hash becomes the rejection of a promise and nothing else happens: no
    line is printed, no manifest is written, nothing stays queued. In the
    callback revision the rejected chain has no handler; in the async
    revision the rejected promise is the one [version] returned. *)
Theorem version_failure_is_rejection (m : Machine) (n : nat) :
  queue m = [] -> (2 <= n)%nat ->
  outputMissing m (js (outputFiles m)) \/ outputMissing m (css (outputFiles m)) ->
  fst (Sync.version m) = Normal tt
  /\ (exists e, run n (snd (Sync.version m)) = emit (EvUnhandled e) m)
  /\ (exists e, run n (snd (Async.version m))
                = emit (EvSettled (promises m) (Throw e)) (snd (newPromise m))).
Proof.
  intros Hq Hn Hmiss. split; [reflexivity|].
  destruct n as [|[|n]]; [lia|lia|]. clear Hn.
  destruct m as [o d l tr q pr]. simpl in Hq. subst q.
  cbn [outputFiles] in Hmiss. split.
  - change (run (S (S n)) ?x) with (run (S n) (step x)).
    unfold step, Sync.version, enqueue, withQueue.
    cbn [snd queue app complete outputFiles].
    unfold Sync.onHashed.
    destruct (md5File _ (js o)) as [h1|e1] eqn:E1.
    + destruct (md5File _ (css o)) as [h2|e2] eqn:E2.
      * exfalso. destruct Hmiss as [Hm|Hm].
        -- exact (md5File_missing _ _ _ Hm eq_refl _ E1).
        -- exact (md5File_missing _ _ _ Hm eq_refl _ E2).
      * exists e2. apply run_quiescent. reflexivity.
    + exists e1. apply run_quiescent. reflexivity.
  - change (run (S (S n)) ?x) with (run (S n) (step x)).
    unfold Async.version, Async.async, Async.versionBody, newPromise, enqueue, withQueue, step.
    cbn [snd queue app complete outputFiles promises].
    unfold Async.onAwaitHashJs.
    destruct (md5File _ (js o)) as [h1|e1] eqn:E1.
    + change (run (S n) ?x) with (run n (step x)).
      unfold step, enqueue, withQueue. cbn [queue app complete outputFiles].
      unfold Async.onAwaitHashCss.
      destruct (md5File _ (css o)) as [h2|e2] eqn:E2.
      * exfalso. destruct Hmiss as [Hm|Hm].
        -- exact (md5File_missing _ _ _ Hm eq_refl _ E1).
        -- exact (md5File_missing _ _ _ Hm eq_refl _ E2).
      * exists e2. apply run_quiescent. reflexivity.
    + exists e1. apply run_quiescent. reflexivity.
Qed.

End VersionFailure.

Section VersionFailureOnDemo.
Local Existing Instance Demo.services.

(** C3, as the claim states it, fails on a packer on which neither [scripts]
    nor [styles] was called: after [version] the only event is the rejection
    of the hash promise, and neither [console.log] nor [console.error] was
    used. *)
Lemma version_unset_logs_nothing :
  let m := Demo.machine initialOutputFiles [] in
  outputMissing m (js (outputFiles m))
  /\ trace (run 2 (snd (Sync.version m))) = [EvUnhandled (TypeError "path")]
  /\ ~ consoleUsed (trace (run 2 (snd (Sync.version m))))
  /\ trace (run 2 (snd (Async.version m))) = [EvSettled 0 (Throw (TypeError "path"))]
  /\ ~ consoleUsed (trace (run 2 (snd (Async.version m)))).
Proof.
  repeat split; try (vm_compute; reflexivity).
  - intros (ch & msg & [Hin|[]]). discriminate.
  - intros (ch & msg & [Hin|[]]). discriminate.
Qed.

End VersionFailureOnDemo.

(* ===================================================================== *)
(** ** Sources of [scripts]: local files and https URLs *)
(* ===================================================================== *)

Section Sources.
Context `{Services}.

Lemma forEachM_app {A S : Type} (f : A -> S -> M S) (pre post : list A) (acc : S) (m : Machine) :
  forEachM f (pre ++ post) acc m
  = match forEachM f pre acc m with
    | (Normal acc1, m1) => forEachM f post acc1 m1
    | (Throw e, m1) => (Throw e, m1)
    end.
Proof.
  revert acc m. induction pre as [|x pre IH]; intros acc m; [reflexivity|].
  simpl. unfold bind. destruct (f x acc m) as [[acc1|e] m1]; [apply IH|reflexivity].
Qed.

(** [#readFiles] of the callback revision issues no request and queues
    nothing: it only reads. *)
Lemma sync_readFiles_requests_nothing (items : list string) :
  forall (codes : JsObj.t) (m : Machine),
  queue (snd (Sync.readFiles items codes m)) = queue m
  /\ forall url, In (EvGet url) (trace (snd (Sync.readFiles items codes m))) ->
                 In (EvGet url) (trace m).
Proof.
  induction items as [|f items IH]; intros codes m; [split; [reflexivity|intros url Hin; exact Hin]|].
  unfold Sync.readFiles in *. cbn [forEachM]. unfold bind, readFileSync, ret.
  assert (Hemit : forall url, In (EvGet url) (trace (emit (EvReadFile (path_resolve f)) m)) ->
                              In (EvGet url) (trace m)).
  { intros url Hin. cbn [trace emit] in Hin. apply in_app_or in Hin as [Hin|[Hin|[]]];
      [exact Hin|discriminate]. }
  destruct (disk m !! path_resolve f) as [content|]; cbn beta iota.
  - destruct (IH (JsObj.set f content codes) (emit (EvReadFile (path_resolve f)) m))
      as [Hq Ht].
    split; [exact Hq|]. intros url Hin. apply Hemit, Ht, Hin.
  - split; [reflexivity|]. intros url Hin. apply Hemit, Hin.
Qed.

(** C2, as it holds. In the revision that knows URLs ([part_001], lines
    193-437) take any list given to [scripts] and any entry of it that is
    reached, that is, no local read before it failed (a failed read throws
    out of the loop). If the entry parses as a URL with protocol [https:],
    a GET for it is issued, its response is awaited under the text that
    follows the last slash of the entry as it is written, nothing is read
    from disk for it, and the loop goes on. Every other entry, an [http:]
    URL and a plain path alike, is read from disk at its resolved path, and
    the read throws when no such file exists. In the callback revision
    ([letsPack.js]) there is no test: every entry reached, whatever
    [#isURL] would say of it, is read from disk at its resolved path, the
    read throws when no such file exists, and no request is ever issued. *)
Theorem readFiles_dispatch (pre post : list string) (file : string)
    (codes codes1 : JsObj.t) (m m1 : Machine) :
  Async.readFiles pre codes m = (Normal codes1, m1) ->
  (forall output p m0,
      Async.scriptsBody (JArray (pre ++ file :: post)) output p m0
      = bind (Async.readFiles (pre ++ file :: post) JsObj.empty)
          (fun codes => effect (enqueue (TAwaitMinify p codes (path_resolve output))))
          (setSlot SlotJs output m0))
  /\ (Async.isURL file = true ->
      Async.readFiles (pre ++ file :: post) codes m
      = Async.readFiles post codes1
          (enqueue (TResponse file (JsString.afterLastSlash file)) (emit (EvGet file) m1)))
  /\ (Async.isURL file = false ->
      Async.readFiles (pre ++ file :: post) codes m
      = match disk m1 !! path_resolve file with
        | Some content =>
            Async.readFiles post (JsObj.set (path_resolve file) content codes1)
              (emit (EvReadFile (path_resolve file)) m1)
        | None => (Throw (ENOENT (path_resolve file)), emit (EvReadFile (path_resolve file)) m1)
        end)
  /\ (forall u, url_parse file = Some u -> protocol u <> "https:" -> Async.isURL file = false)
  /\ (url_parse file = None -> Async.isURL file = false)
  /\ (forall items,
      Sync.readSources (JArray items) = Sync.readFiles (map path_resolve items) JsObj.empty)
  /\ (forall codes2 m2,
      Sync.readFiles (map path_resolve pre) codes m = (Normal codes2, m2) ->
      Sync.readFiles (map path_resolve (pre ++ file :: post)) codes m
      = match disk m2 !! path_resolve file with
        | Some content =>
            Sync.readFiles (map path_resolve post)
              (JsObj.set (path_resolve file) content codes2)
              (emit (EvReadFile (path_resolve file)) m2)
        | None => (Throw (ENOENT (path_resolve file)), emit (EvReadFile (path_resolve file)) m2)
        end)
  /\ (forall items codes0 m0,
      queue (snd (Sync.readFiles items codes0 m0)) = queue m0
      /\ forall url, In (EvGet url) (trace (snd (Sync.readFiles items codes0 m0))) ->
                     In (EvGet url) (trace m0)).
Proof.
  intros Hpre. split; [reflexivity|].
  assert (Happ : Async.readFiles (pre ++ file :: post) codes m
                 = bind (Async.readEntry file codes1) (Async.readFiles post) m1).
  { unfold Async.readFiles in *. rewrite forEachM_app, Hpre. reflexivity. }
  split; [|split; [|split; [|split; [|split; [|split]]]]].
  - intros Hurl. rewrite Happ. unfold bind, Async.readEntry. rewrite Hurl. reflexivity.
  - intros Hurl. rewrite Happ. unfold bind at 1. unfold Async.readEntry. rewrite Hurl.
    unfold bind, readFileSync, ret. destruct (disk m1 !! path_resolve file); reflexivity.
  - intros u Hu Hproto. unfold Async.isURL. rewrite Hu.
    destruct (String.eqb_spec "https:" (protocol u)) as [Heq|Hne].
    + exfalso. apply Hproto. symmetry. exact Heq.
    + apply andb_false_r.
  - intros Hu. unfold Async.isURL. rewrite Hu. reflexivity.
  - reflexivity.
  - intros codes2 m2 Hsync. rewrite map_app. cbn [map].
    unfold Sync.readFiles in *. rewrite forEachM_app, Hsync. cbn [forEachM].
    unfold bind, readFileSync, ret. rewrite path_resolve_idem.
    destruct (disk m2 !! path_resolve file); reflexivity.
  - intros items codes0 m0. apply sync_readFiles_requests_nothing.
Qed.

(** C2 as the specification has it fails twice on the https entry
    [https://cdn.example.com/lib/x.js?v=1], which [#isURL] accepts. The
    callback revision reads it from disk: [scripts] throws the [ENOENT] of
    the local read and no request was made. The revision that downloads it
    awaits the response under [x.js?v=1], the text after the last slash,
    where the final path segment of the URL is [x.js]; and
    [https://example.com], whose path has no segment, is awaited under
    [example.com]. *)
Lemma https_entry_read_locally_or_named_by_text :
  let url := "https://cdn.example.com/lib/x.js?v=1" in
  let m := @Demo.machine initialOutputFiles [] in
  @Async.isURL Demo.services url = true
  /\ @Sync.scripts Demo.services (JArray [url]) "dist/app.min.js" m
     = (Throw (ENOENT "/w/https://cdn.example.com/lib/x.js?v=1"),
        emit (EvReadFile "/w/https://cdn.example.com/lib/x.js?v=1")
          (setSlot SlotJs "dist/app.min.js" m))
  /\ @Async.readFiles Demo.services [url] [] m
     = (Normal [], enqueue (TResponse url "x.js?v=1") (emit (EvGet url) m))
  /\ UrlSpec.finalPathSegment url = "x.js"
  /\ @Async.readFiles Demo.services ["https://example.com"] [] m
     = (Normal [],
        enqueue (TResponse "https://example.com" "example.com")
          (emit (EvGet "https://example.com") m))
  /\ UrlSpec.finalPathSegment "https://example.com" = "".
Proof.
  repeat split; vm_compute; reflexivity.
Qed.

(** *** What reading leaves behind *)

Lemma grows_refl (m : Machine) : grows m m.
Proof.
  repeat split. exists [], []. rewrite !app_nil_r. repeat split.
Qed.

Lemma grows_trans (m1 m2 m3 : Machine) : grows m1 m2 -> grows m2 m3 -> grows m1 m3.
Proof.
  intros (Ho & Hd & Hl & Hp & e1 & t1 & Ht & Hq & He & Hr)
         (Ho' & Hd' & Hl' & Hp' & e2 & t2 & Ht' & Hq' & He' & Hr').
  repeat split; try congruence.
  exists (e1 ++ e2), (t1 ++ t2).
  rewrite Ht', Ht, Hq', Hq, !app_assoc, !forallb_app, He, He', Hr, Hr'.
  repeat split.
Qed.

Lemma grows_emit (e : Event) (m : Machine) : isReadEvent e = true -> grows m (emit e m).
Proof.
  intros He. repeat split. exists [e], []. simpl. rewrite He, app_nil_r. repeat split.
Qed.

Lemma grows_response (url name : string) (m : Machine) :
  grows m (enqueue (TResponse url name) m).
Proof.
  repeat split. exists [], [TResponse url name]. simpl. rewrite app_nil_r. repeat split.
Qed.

Lemma grows_readFileSync (path : string) (m : Machine) :
  grows m (snd (readFileSync path m)).
Proof.
  unfold readFileSync. destruct (disk m !! path_resolve path); simpl;
    apply grows_emit; reflexivity.
Qed.

Lemma grows_readdirSync (dir : string) (m : Machine) :
  grows m (snd (readdirSync dir m)).
Proof.
  unfold readdirSync. destruct (dirEntries _ _); simpl; apply grows_emit; reflexivity.
Qed.

Lemma grows_readEntry (file : string) (codes : JsObj.t) (m : Machine) :
  grows m (snd (Async.readEntry file codes m)).
Proof.
  unfold Async.readEntry. destruct (Async.isURL file).
  - unfold Async.download, bind, effect, ret. simpl.
    apply (grows_trans _ (emit (EvGet file) m)); [apply grows_emit; reflexivity|apply grows_response].
  - unfold bind. pose proof (grows_readFileSync file m) as Hg.
    destruct (readFileSync file m) as [[content|e] m']; exact Hg.
Qed.

Lemma grows_forEachM {A S : Type} (f : A -> S -> M S) (l : list A) :
  (forall x acc m, grows m (snd (f x acc m))) ->
  forall acc m, grows m (snd (forEachM f l acc m)).
Proof.
  intros Hf. induction l as [|x l IH]; intros acc m; [apply grows_refl|].
  simpl. unfold bind. pose proof (Hf x acc m) as Hg.
  destruct (f x acc m) as [[acc1|e] m1]; [|exact Hg].
  eapply grows_trans; [exact Hg|apply IH].
Qed.

Lemma grows_async_readFiles (files : list string) (codes : JsObj.t) (m : Machine) :
  grows m (snd (Async.readFiles files codes m)).
Proof. apply grows_forEachM. apply grows_readEntry. Qed.

Lemma grows_async_readDirectoryFiles (dir : string) (codes : JsObj.t) (m : Machine) :
  grows m (snd (Async.readDirectoryFiles dir codes m)).
Proof.
  unfold Async.readDirectoryFiles, bind. pose proof (grows_readdirSync dir m) as Hg.
  destruct (readdirSync dir m) as [[names|e] m1]; [|exact Hg].
  eapply grows_trans; [exact Hg|apply grows_async_readFiles].
Qed.

End Sources.

(* ===================================================================== *)
(** ** When the promise of [scripts] is fulfilled *)
(* ===================================================================== *)

Section Fulfilment.
Context `{Services}.





(** The body of [scripts] either throws after reads and requests only, or
    suspends at the [await] after them. *)
Lemma scriptsBody_shape (source : JsValue) (output : string) (p : nat) (m : Machine) :
  exists m3, grows (setSlot SlotJs output m) m3
    /\ ((exists e, Async.scriptsBody source output p m = (Throw e, m3))
        \/ (exists codes, Async.scriptsBody source output p m
              = (Normal tt, enqueue (TAwaitMinify p codes (path_resolve output)) m3))).
Proof.
  unfold Async.scriptsBody, bind, effect.
  set (m2 := setSlot SlotJs output m).
  assert (Hread : forall (c : M JsObj.t), grows m2 (snd (c m2)) ->
    exists m3, grows m2 m3 /\
      ((exists e, match c m2 with
                  | (Normal a, m') => (Normal tt, enqueue (TAwaitMinify p a (path_resolve output)) m')
                  | (Throw e, m') => (Throw e, m')
                  end = (Throw e, m3))
       \/ (exists codes, match c m2 with
                  | (Normal a, m') => (Normal tt, enqueue (TAwaitMinify p a (path_resolve output)) m')
                  | (Throw e, m') => (Throw e, m')
                  end = (Normal tt, enqueue (TAwaitMinify p codes (path_resolve output)) m3)))).
  { intros c Hg. destruct (c m2) as [[codes|e] m3]; exists m3; (split; [exact Hg|]).
    - right. exists codes. reflexivity.
    - left. exists e. reflexivity. }
  destruct source; try (apply Hread; apply grows_refl).
  - apply Hread. apply grows_async_readDirectoryFiles.
  - apply Hread. apply grows_async_readFiles.
Qed.


End Fulfilment.

Section FulfilmentOnDemo.
Local Existing Instance Demo.services.


End FulfilmentOnDemo.

(* ===================================================================== *)
(** ** Running [scripts] and [styles] again *)
(* ===================================================================== *)

Section Rerun.
Context `{Services}.

Lemma no_write_in_reads (evs : list Event) :
  forallb isReadEvent evs = true -> forall p c, ~ In (EvWrite p c) evs.
Proof.
  intros Hall p c Hin. rewrite forallb_forall in Hall.
  specialize (Hall _ Hin). discriminate.
Qed.

(** An outcome seen from an earlier machine that differs by write-free
    events only. *)
Lemma outcomeOf_prefix (out : string) (r : option string) (m s s' : Machine)
    (evs : list Event) :
  outcomeOf out r s s' ->
  disk s = disk m -> locked s = locked m -> trace s = trace m ++ evs ->
  (forall p c, ~ In (EvWrite p c) evs) ->
  outcomeOf out r m s'.
Proof.
  intros (Hq & Hl & Hd & tail & Htr & Hiff) Hdisk Hlocked Htrace Hfree.
  rewrite Hdisk, Hlocked in Hd. rewrite Hlocked in Hl. rewrite Hlocked in Hiff.
  repeat split; try assumption.
  exists (evs ++ tail). split; [rewrite Htr, Htrace, app_assoc; reflexivity|].
  intros p c. rewrite <- Hiff. split.
  - intros Hin. apply in_app_or in Hin as [Hin|Hin]; [destruct (Hfree _ _ Hin)|exact Hin].
  - intros Hin. apply in_or_app. right. exact Hin.
Qed.

Lemma outcomeOf_none (out : string) (m s : Machine) (evs : list Event) :
  queue s = [] -> disk s = disk m -> locked s = locked m -> trace s = trace m ++ evs ->
  (forall p c, ~ In (EvWrite p c) evs) ->
  outcomeOf out None m s.
Proof.
  intros Hq Hd Hl Htr Hfree. repeat split; try assumption.
  exists evs. split; [exact Htr|]. intros p c. split.
  - intros Hin. destruct (Hfree _ _ Hin).
  - intros (Hno & _). discriminate.
Qed.

(** The two turns after [writeFile(output, code, ...)] was called by
    [scripts] or [styles]: the write and the size report. *)
Lemma write_pipeline (out code : string) (slot : Slot) (s : Machine) :
  queue s = [] ->
  outcomeOf out (Some code) s
    (run 2 (enqueue (TWriteFile (path_resolve out) code (CbLogThenSize slot)) s)).
Proof.
  destruct s as [o d l tr q pr]. simpl. intros ->.
  unfold outcomeOf, step, enqueue, withQueue. cbn [queue app complete locked disk trace].
  unfold onWriteFile, performWrite. rewrite path_resolve_idem. cbn [locked].
  destruct (decide (path_resolve out ∈ l)) as [Hin|Hout].
  - cbn [onWritten]. unfold printSize, logTo, emit, enqueue, withQueue.
    cbn [queue app complete outputFiles disk locked trace promises].
    unfold onStat, statSize, logTo, emit. cbn [disk]. rewrite path_resolve_idem.
    destruct (d !! path_resolve out); [destruct (slotOf slot o)|];
      cbn [fmap option_fmap option_map queue locked disk trace];
      (repeat split; eexists; (split; [rewrite <- !app_assoc; reflexivity|]);
       intros p c; simpl; split;
       [intros [?|[?|[?|[?|[]]]]]; discriminate | intros (_ & _ & Hno); contradiction]).
  - cbn [onWritten]. unfold printSize, emit, enqueue, withDisk, withQueue.
    cbn [queue app complete outputFiles disk locked trace promises].
    unfold onStat, statSize, logTo, emit. cbn [disk]. rewrite path_resolve_idem.
    rewrite lookup_insert_eq.
    destruct (slotOf slot o);
      cbn [fmap option_fmap option_map queue locked disk trace];
      (repeat split; eexists; (split; [rewrite <- !app_assoc; reflexivity|]);
       intros p c; simpl; split;
       [intros [Heq|[?|[?|[]]]]; try discriminate; injection Heq as <- <-; auto
       | intros (Hc & -> & _); injection Hc as <-; left; reflexivity]).
Qed.

(** *** The readers of the callback revision *)

Lemma quiet_readFileSync (path : string) (m : Machine) :
  queue (snd (readFileSync path m)) = queue m.
Proof. unfold readFileSync. destruct (disk m !! path_resolve path); reflexivity. Qed.

Lemma forEachM_rel {A S : Type} (R : Machine -> Machine -> Prop) (f : A -> S -> M S)
    (l : list A) :
  (forall m, R m m) -> (forall a b c, R a b -> R b c -> R a c) ->
  (forall x acc m, R m (snd (f x acc m))) ->
  forall acc m, R m (snd (forEachM f l acc m)).
Proof.
  intros Hrefl Htrans Hf. induction l as [|x l IH]; intros acc m; [apply Hrefl|].
  simpl. unfold bind. pose proof (Hf x acc m) as Hg.
  destruct (f x acc m) as [[acc1|e] m1]; [|exact Hg].
  eapply Htrans; [exact Hg|apply IH].
Qed.

Lemma sync_readFiles_grows (files : list string) (codes : JsObj.t) (m : Machine) :
  grows m (snd (Sync.readFiles files codes m))
  /\ queue (snd (Sync.readFiles files codes m)) = queue m.
Proof.
  unfold Sync.readFiles.
  apply (forEachM_rel (fun a b => grows a b /\ queue b = queue a)).
  - intros a. split; [apply grows_refl|reflexivity].
  - intros a b c [Hg Hq] [Hg' Hq']. split; [eapply grows_trans; eassumption|congruence].
  - intros x acc a. unfold bind.
    pose proof (grows_readFileSync x a) as Hg. pose proof (quiet_readFileSync x a) as Hq.
    destruct (readFileSync x a) as [[content|e] m1]; split; assumption.
Qed.

Lemma sync_readSources_grows (source : JsValue) (m : Machine) :
  grows m (snd (Sync.readSources source m))
  /\ queue (snd (Sync.readSources source m)) = queue m.
Proof.
  destruct source; simpl; try (split; [apply grows_refl|reflexivity]).
  - unfold Sync.readDirectoryFiles, bind.
    pose proof (grows_readdirSync (path_resolve s) m) as Hg.
    assert (Hq : queue (snd (readdirSync (path_resolve s) m)) = queue m).
    { unfold readdirSync. destruct (dirEntries _ _); reflexivity. }
    destruct (readdirSync (path_resolve s) m) as [[names|e] m1]; simpl in *.
    + destruct (sync_readFiles_grows (map (fun file => path_join (path_resolve s) file) names)
                  JsObj.empty m1) as [Hg' Hq'].
      split; [eapply grows_trans; eassumption|congruence].
    + split; assumption.
  - apply sync_readFiles_grows.
Qed.

Lemma sync_readFiles_disk_only (files : list string) (codes : JsObj.t) (m m' : Machine) :
  disk m = disk m' ->
  fst (Sync.readFiles files codes m) = fst (Sync.readFiles files codes m').
Proof.
  revert codes m m'. induction files as [|f files IH]; intros codes m m' Hd; [reflexivity|].
  unfold Sync.readFiles in *. cbn [forEachM]. unfold bind, readFileSync, ret.
  rewrite <- Hd. destruct (disk m !! path_resolve f); [|reflexivity].
  apply IH. exact Hd.
Qed.

(** What [scripts] reads depends on the disk alone. *)
Lemma sync_readSources_disk_only (source : JsValue) (m m' : Machine) :
  disk m = disk m' ->
  fst (Sync.readSources source m) = fst (Sync.readSources source m').
Proof.
  intros Hd. destruct source; try reflexivity.
  - simpl. unfold Sync.readDirectoryFiles, bind, readdirSync. rewrite <- Hd.
    destruct (dirEntries _ _); [reflexivity|].
    apply sync_readFiles_disk_only. exact Hd.
  - apply sync_readFiles_disk_only. exact Hd.
Qed.

(** One call of [scripts] and its turns, on a machine at rest. *)
Lemma runScripts_outcome (source : JsValue) (output : string) (m : Machine) :
  queue m = [] ->
  outcomeOf output (scriptsOutcome source m) m (runScripts source output m).
Proof.
  intros Hq. unfold runScripts, Sync.scripts, scriptsOutcome, bind, effect.
  set (m2 := setSlot SlotJs output m).
  rewrite (sync_readSources_disk_only source m m2) by reflexivity.
  destruct (sync_readSources_grows source m2)
    as [(_ & Hd & Hl & _ & evs & ts & Htr & _ & Hevs & _) Hq3].
  destruct (Sync.readSources source m2) as [[codes|e] m3]; cbn [fst snd] in *.
  - destruct m3 as [o3 d3 l3 tr3 q3 pr3].
    cbn [disk locked trace queue] in Hd, Hl, Htr, Hq3.
    assert (q3 = []) as -> by (rewrite Hq3; exact Hq).
    change (run 3 ?x) with (run 2 (step x)).
    unfold step, enqueue, withQueue. cbn [queue app complete outputFiles disk locked trace promises].
    unfold Sync.onMinified. destruct (terser_minify codes terserConfig) as [code|e].
    + eapply outcomeOf_prefix;
        [apply write_pipeline; reflexivity|exact Hd|exact Hl|exact Htr|].
      apply no_write_in_reads. exact Hevs.
    + rewrite run_quiescent by reflexivity.
      apply (outcomeOf_none output m _ (evs ++ [EvUnhandled e])); try assumption.
      * reflexivity.
      * cbn [trace emit]. rewrite Htr, app_assoc. reflexivity.
      * intros p c Hin. apply in_app_or in Hin as [Hin|[Hin|[]]]; [|discriminate].
        exact (no_write_in_reads evs Hevs _ _ Hin).
  - rewrite run_quiescent by (rewrite Hq3; exact Hq).
    apply (outcomeOf_none output m _ evs); try assumption.
    + rewrite Hq3. exact Hq.
    + apply no_write_in_reads. exact Hevs.
Qed.

(** One call of [styles] and its turns, on a machine at rest. *)
Lemma runStyles_outcome (style : JsValue) (output : string) (m : Machine) :
  queue m = [] ->
  outcomeOf output (stylesOutcome style output m) m (runStyles style output m).
Proof.
  intros Hq. unfold runStyles, Sync.styles, stylesOutcome, bind, effect.
  destruct m as [o d l tr q pr]. simpl in Hq. subst q.
  assert (Hnone : forall v,
    outcomeOf output None {| outputFiles := o; disk := d; locked := l; trace := tr;
                             queue := []; promises := pr |}
      (run 4 (snd (throw (A := unit) v
         (setSlot SlotCss output {| outputFiles := o; disk := d; locked := l; trace := tr;
                                     queue := []; promises := pr |}))))).
  { intros v. rewrite run_quiescent by reflexivity.
    apply (outcomeOf_none output _ _ []); try reflexivity.
    - simpl. rewrite app_nil_r. reflexivity.
    - intros p c []. }
  destruct style as [| | | |s| |]; try apply Hnone.
  change (run 4 ?x) with (run 3 (step x)).
  unfold step, enqueue, withQueue, setSlot, withOutputFiles.
  cbn [snd queue app complete outputFiles disk locked trace promises css js].
  unfold Sync.onReadStyle, logTo, emit. cbn [disk]. rewrite path_resolve_idem.
  destruct (d !! path_resolve s) as [content|].
  - change (run 3 ?x) with (run 2 (step x)).
    unfold step, enqueue, withQueue.
    cbn [queue app complete outputFiles disk locked trace promises].
    unfold Sync.onProcessed.
    destruct (postcss_process _ content (path_resolve s) (path_resolve output)) as [result|e].
    + eapply (outcomeOf_prefix output (Some result) _ _ _ [EvReadFile (path_resolve s)]);
        [apply write_pipeline; reflexivity|reflexivity|reflexivity|reflexivity|].
      intros p c Hin. simpl in Hin. destruct Hin as [Hin|[]]. discriminate.
    + rewrite run_quiescent by reflexivity.
      apply (outcomeOf_none output _ _
               [EvReadFile (path_resolve s); EvConsole Stderr (MsgError e)]);
        [reflexivity|reflexivity|reflexivity|unfold logTo, emit; cbn [trace]; rewrite <- app_assoc; reflexivity|].
      intros p c Hin. simpl in Hin. destruct Hin as [Hin|[Hin|[]]]; discriminate.
  - rewrite run_quiescent by reflexivity.
    apply (outcomeOf_none output _ _
             [EvReadFile (path_resolve s); EvConsole Stderr (MsgError (ENOENT (path_resolve s)))]);
      [reflexivity|reflexivity|reflexivity|unfold logTo, emit; cbn [trace]; rewrite <- app_assoc; reflexivity|].
    intros p c Hin. simpl in Hin. destruct Hin as [Hin|[Hin|[]]]; discriminate.
Qed.

(** Two equal outcomes in a row: the second leaves the disk of the first. *)
Lemma outcomeOf_twice (out : string) (r : option string) (m m1 m2 : Machine) :
  outcomeOf out r m m1 -> outcomeOf out r m1 m2 ->
  disk m2 = disk m1
  /\ md5File m2 (Some out) = md5File m1 (Some out)
  /\ forall code, wrote (path_resolve out) code m m1 ->
        wrote (path_resolve out) code m1 m2
        /\ disk m1 !! path_resolve out = Some code
        /\ disk m2 !! path_resolve out = Some code.
Proof.
  intros (Hq1 & Hl1 & Hd1 & evs1 & Htr1 & Hiff1) (Hq2 & Hl2 & Hd2 & evs2 & Htr2 & Hiff2).
  assert (Hdisk : disk m2 = disk m1).
  { rewrite Hd2, Hl1. destruct r as [code|]; [|reflexivity].
    destruct (decide (path_resolve out ∈ locked m)); [reflexivity|].
    rewrite Hd1. destruct (decide (path_resolve out ∈ locked m)); [contradiction|].
    apply insert_insert_eq. }
  split; [exact Hdisk|]. split.
  { unfold md5File. rewrite Hdisk. reflexivity. }
  intros code (evs & Htr & Hin).
  rewrite Htr1 in Htr. apply app_inv_head in Htr. subst evs.
  apply Hiff1 in Hin as (Hr & _ & Hfree).
  assert (Hlook : disk m1 !! path_resolve out = Some code).
  { rewrite Hd1, Hr. destruct (decide (path_resolve out ∈ locked m)); [contradiction|].
    apply lookup_insert_eq. }
  split; [|split; [exact Hlook|rewrite Hdisk; exact Hlook]].
  exists evs2. split; [exact Htr2|]. apply Hiff2. rewrite Hl1. auto.
Qed.



(** C7. Run [scripts] of the callback revision, let the event loop finish,
    and run it again with the same arguments. If what it reads the second
    time is what it read the first time (the same sources with the same
    contents), the second run leaves the disk as the first run left it, the
    hash of the output is the same, and when the first run wrote the output
    the second run writes the same text. The same holds for [styles] when
    the entry file is unchanged. The minifier and the CSS pipeline are
    functions of their arguments. *)
Theorem rerun_idempotent (source style : JsValue) (output : string) (m : Machine) :
  queue m = [] ->
  (let m1 := runScripts source output m in
   let m2 := runScripts source output m1 in
   fst (Sync.readSources source m1) = fst (Sync.readSources source m) ->
   disk m2 = disk m1
   /\ md5File m2 (Some output) = md5File m1 (Some output)
   /\ forall code, wrote (path_resolve output) code m m1 ->
         wrote (path_resolve output) code m1 m2
         /\ disk m1 !! path_resolve output = Some code
         /\ disk m2 !! path_resolve output = Some code)
  /\ (let m1 := runStyles style output m in
      let m2 := runStyles style output m1 in
      (forall s, style = JString s -> disk m1 !! path_resolve s = disk m !! path_resolve s) ->
      disk m2 = disk m1
      /\ md5File m2 (Some output) = md5File m1 (Some output)
      /\ forall code, wrote (path_resolve output) code m m1 ->
            wrote (path_resolve output) code m1 m2
            /\ disk m1 !! path_resolve output = Some code
            /\ disk m2 !! path_resolve output = Some code).
Proof.
  intros Hq. split.
  - intros m1 m2 Hsame.
    pose proof (runScripts_outcome source output m Hq) as H1. fold m1 in H1.
    assert (Hq1 : queue m1 = []) by apply H1.
    pose proof (runScripts_outcome source output m1 Hq1) as H2. fold m2 in H2.
    assert (Hr : scriptsOutcome source m1 = scriptsOutcome source m).
    { unfold scriptsOutcome. rewrite Hsame. reflexivity. }
    rewrite Hr in H2. exact (outcomeOf_twice _ _ _ _ _ H1 H2).
  - intros m1 m2 Hsame.
    pose proof (runStyles_outcome style output m Hq) as H1. fold m1 in H1.
    assert (Hq1 : queue m1 = []) by apply H1.
    pose proof (runStyles_outcome style output m1 Hq1) as H2. fold m2 in H2.
    assert (Hr : stylesOutcome style output m1 = stylesOutcome style output m).
    { unfold stylesOutcome. destruct style; try reflexivity.
      rewrite (Hsame s eq_refl). reflexivity. }
    rewrite Hr in H2. exact (outcomeOf_twice _ _ _ _ _ H1 H2).
Qed.

End Rerun.

(* ===================================================================== *)
(** ** The properties at concrete inputs *)
(* ===================================================================== *)

Section OnDemo.
Local Existing Instance Demo.services.

(** A list with a local file, an https URL and an http URL: the second entry
    is requested under the name [x.js], and the loop goes on to the third. *)
Lemma readFiles_dispatch_witness :
  let m := Demo.machine initialOutputFiles [("/w/src/a.js", "A;")] in
  let m1 := emit (EvReadFile "/w/src/a.js") m in
  let url := "https://cdn.example.com/lib/x.js" in
  Async.readFiles ["src/a.js"] [] m = (Normal [("/w/src/a.js", "A;")], m1)
  /\ Async.isURL url = true
  /\ Async.readFiles ["src/a.js"; url; "http://e.com/y.js"] [] m
     = Async.readFiles ["http://e.com/y.js"] [("/w/src/a.js", "A;")]
         (enqueue (TResponse url "x.js") (emit (EvGet url) m1)).
Proof.
  split; [vm_compute; reflexivity|]. split; [vm_compute; reflexivity|].
  refine (proj1 (proj2 (readFiles_dispatch ["src/a.js"] ["http://e.com/y.js"]
            "https://cdn.example.com/lib/x.js" [] [("/w/src/a.js", "A;")]
            (Demo.machine initialOutputFiles [("/w/src/a.js", "A;")]) _ _)) _).
  - vm_compute. reflexivity.
  - vm_compute. reflexivity.
Defined.

(** [version] on a packer whose registry is empty. *)
Lemma version_failure_is_rejection_witness :
  let m := Demo.machine initialOutputFiles [] in
  queue m = [] /\ (2 <= 2)%nat /\ outputMissing m (js (outputFiles m))
  /\ exists e, run 2 (snd (Sync.version m)) = emit (EvUnhandled e) m.
Proof.
  split; [reflexivity|]. split; [lia|]. split; [simpl; exact I|].
  refine (proj1 (proj2 (version_failure_is_rejection (Demo.machine initialOutputFiles []) 2
            _ _ _))).
  - reflexivity.
  - lia.
  - left. simpl. exact I.
Defined.


(** [scripts(null, ...)] *)
Lemma scripts_usage_error_sync_witness :
  let m := Demo.machine initialOutputFiles [("/w/src/a.js", "A;")] in
  notArrayOrString JNull = true
  /\ Sync.scripts JNull "dist/app.min.js" m
     = (Throw (UsageError "Uknown type for 'scripts'!"), setSlot SlotJs "dist/app.min.js" m)
  /\ trace (snd (Sync.scripts JNull "dist/app.min.js" m)) = []
  /\ queue (snd (Sync.scripts JNull "dist/app.min.js" m)) = [].
Proof.
  split; [reflexivity|].
  pose proof (scripts_usage_error_sync JNull "dist/app.min.js"
                (Demo.machine initialOutputFiles [("/w/src/a.js", "A;")]) eq_refl)
    as (H1 & H2 & H3 & _).
  split; [exact H1|]. split; [exact H2|exact H3].
Defined.


(** [scripts] twice on two sources, output outside the sources. *)
Lemma rerun_idempotent_witness :
  let m := Demo.machine initialOutputFiles [("/w/src/a.js", "A;"); ("/w/src/b.js", "B;")] in
  let source := JArray ["src/a.js"; "src/b.js"] in
  let m1 := runScripts source "dist/app.min.js" m in
  let m2 := runScripts source "dist/app.min.js" m1 in
  queue m = []
  /\ fst (Sync.readSources source m1) = fst (Sync.readSources source m)
  /\ wrote "/w/dist/app.min.js" "A;B;" m m1
  /\ disk m2 = disk m1
  /\ md5File m2 (Some "dist/app.min.js") = md5File m1 (Some "dist/app.min.js")
  /\ wrote "/w/dist/app.min.js" "A;B;" m1 m2
  /\ disk m2 !! "/w/dist/app.min.js" = Some "A;B;".
Proof.
  assert (Hw : wrote "/w/dist/app.min.js" "A;B;"
                 (Demo.machine initialOutputFiles [("/w/src/a.js", "A;"); ("/w/src/b.js", "B;")])
                 (runScripts (JArray ["src/a.js"; "src/b.js"]) "dist/app.min.js"
                    (Demo.machine initialOutputFiles
                       [("/w/src/a.js", "A;"); ("/w/src/b.js", "B;")]))).
  { eexists. split; [vm_compute; reflexivity|]. right. right. left. reflexivity. }
  split; [reflexivity|]. split; [vm_compute; reflexivity|]. split; [exact Hw|].
  pose proof (proj1 (rerun_idempotent (JArray ["src/a.js"; "src/b.js"]) JNull "dist/app.min.js"
                (Demo.machine initialOutputFiles [("/w/src/a.js", "A;"); ("/w/src/b.js", "B;")])
                eq_refl)) as Hrun.
  simpl in Hrun. destruct Hrun as (Hd & Hh & Hcode).
  { vm_compute. reflexivity. }
  destruct (Hcode "A;B;" Hw) as (Hw2 & _ & Hlook).
  split; [exact Hd|]. split; [exact Hh|]. split; [exact Hw2|exact Hlook].
Defined.

(** [scripts(42, ...)] and [styles(undefined, ...)] *)
Lemma usage_error_sets_registry_witness :
  let m := Demo.machine initialOutputFiles [] in
  notArrayOrString (JNumber 42) = true /\ notString JUndefined = true
  /\ js (outputFiles (snd (Sync.scripts (JNumber 42) "dist/app.min.js" m)))
     = Some "dist/app.min.js"
  /\ css (outputFiles (snd (Sync.styles JUndefined "dist/app.min.css" m)))
     = Some "dist/app.min.css".
Proof.
  split; [reflexivity|]. split; [reflexivity|]. split.
  - exact (proj1 (proj2 (proj1 (usage_error_sets_registry (JNumber 42) "dist/app.min.js"
             (Demo.machine initialOutputFiles [])) eq_refl))).
  - exact (proj1 (proj2 (proj2 (usage_error_sets_registry JUndefined "dist/app.min.css"
             (Demo.machine initialOutputFiles [])) eq_refl))).
Defined.

(** An https URL, an http URL and a plain path. *)
Lemma isURL_total_https_witness :
  Async.isURL "https://cdn.example.com/lib/x.js" = true
  /\ Delayed.isURL "https://cdn.example.com/lib/x.js" = true
  /\ Async.isURL "src/a.js" = false /\ Delayed.isURL "src/a.js" = false.
Proof.
  split; [|split].
  - apply (proj1 (isURL_total_https "https://cdn.example.com/lib/x.js")).
    exists {| protocol := "https:" |}. split; reflexivity.
  - apply (proj1 (proj2 (isURL_total_https "https://cdn.example.com/lib/x.js"))).
    exists {| protocol := "https:" |}. split; reflexivity.
  - exact (proj2 (proj2 (isURL_total_https "src/a.js")) eq_refl).
Defined.

End OnDemo.

(* ===================================================================== *)
(** ** Further properties: names and labels *)
(* ===================================================================== *)

Section Names.
Import JsString.

Lemma length_append (s t : string) :
  String.length (s +:+ t) = (String.length s + String.length t)%nat.
Proof.
  induction s as [|a s IH]; [reflexivity|]. rewrite append_cons. simpl. rewrite IH. reflexivity.
Qed.

Lemma length_spaces (n : nat) : String.length (Size.spaces n) = n.
Proof. induction n as [|n IH]; [reflexivity|]. simpl. rewrite IH. reflexivity. Qed.

Lemma append_assoc (s t u : string) : (s +:+ t) +:+ u = s +:+ t +:+ u.
Proof.
  induction s as [|a s IH]; [reflexivity|]. rewrite !append_cons, IH. reflexivity.
Qed.

Lemma lastIndexOf_from_absent (c : ascii) (s : string) (i found : Z) :
  includes c s = false -> lastIndexOf_from c s i found = found.
Proof.
  revert i found. induction s as [|a s IH]; intros i found Hno; [reflexivity|].
  simpl in *. destruct (Ascii.eqb a c); [discriminate|]. apply IH. exact Hno.
Qed.

Lemma lastIndexOf_from_last (c : ascii) (dir name : string) (i found : Z) :
  includes c name = false ->
  lastIndexOf_from c (dir +:+ String c name) i found = i + Z.of_nat (String.length dir).
Proof.
  revert i found. induction dir as [|a dir IH]; intros i found Hno.
  - simpl. rewrite Ascii.eqb_refl. rewrite lastIndexOf_from_absent by exact Hno. lia.
  - rewrite append_cons. simpl lastIndexOf_from. rewrite IH by exact Hno.
    simpl String.length. lia.
Qed.

Lemma skip_append (dir rest : string) : skip (String.length dir) (dir +:+ rest) = rest.
Proof. induction dir as [|a dir IH]; [reflexivity|]. rewrite append_cons. simpl. exact IH. Qed.

(** The text after the last slash of [dir/name] is [name]. *)
Lemma afterLastSlash_join (dir name : string) :
  includes slash name = false -> afterLastSlash (dir +:+ String slash name) = name.
Proof.
  intros Hno. unfold afterLastSlash, lastIndexOf, substring.
  rewrite lastIndexOf_from_last by exact Hno.
  replace (Z.to_nat (0 + Z.of_nat (String.length dir) + 1)) with (S (String.length dir)) by lia.
  change (dir +:+ String slash name) with (dir +:+ (String slash EmptyString +:+ name)).
  rewrite <- append_assoc.
  replace (S (String.length dir)) with (String.length (dir +:+ String slash EmptyString)).
  - apply skip_append.
  - rewrite length_append. simpl. lia.
Qed.

Lemma afterLastSlash_plain (name : string) :
  includes slash name = false -> afterLastSlash name = name.
Proof.
  intros Hno. unfold afterLastSlash, lastIndexOf, substring.
  rewrite lastIndexOf_from_absent by exact Hno. reflexivity.
Qed.

Lemma replaceAll_append (a b : ascii) (s t : string) :
  replaceAll a b (s +:+ t) = replaceAll a b s +:+ replaceAll a b t.
Proof.
  induction s as [|x s IH]; [reflexivity|]. rewrite append_cons. simpl.
  rewrite IH, append_cons. reflexivity.
Qed.

(** X10. The base name [version] extracts undoes joining a directory and a
    file name, with a slash as well as with a backslash as the separator,
    whatever separators the directory part holds; a name without separators
    is its own base name, and extracting twice changes nothing. *)
Theorem baseName_of_join (dir name : string) :
  includes slash name = false -> includes backslash name = false ->
  baseName (dir +:+ String slash name) = name
  /\ baseName (dir +:+ String backslash name) = name
  /\ baseName name = name
  /\ forall p, baseName (baseName p) = baseName p.
Proof.
  intros Hs Hb.
  assert (Hname : replaceAll backslash slash name = name)
    by (apply includes_replaceAll; exact Hb).
  split; [|split; [|split]].
  - unfold baseName. rewrite replaceAll_append.
    change (replaceAll backslash slash (String slash name))
      with (String slash (replaceAll backslash slash name)).
    rewrite Hname. apply afterLastSlash_join. exact Hs.
  - unfold baseName. rewrite replaceAll_append.
    change (replaceAll backslash slash (String backslash name))
      with (String slash (replaceAll backslash slash name)).
    rewrite Hname. apply afterLastSlash_join. exact Hs.
  - unfold baseName. rewrite Hname. apply afterLastSlash_plain. exact Hs.
  - intros p. destruct (baseName_clean p) as [Hps Hpb].
    unfold baseName at 1. rewrite includes_replaceAll by exact Hpb.
    apply afterLastSlash_plain. exact Hps.
Qed.

(** X9. The label [#printSize] prints before the tab is the text after the
    last slash of the name, a colon, and fewer than eight blanks; its length
    is a multiple of 8. *)
Theorem label_width (name : string) :
  len (Size.label name) mod 8 = 0
  /\ exists k, (k < 8)%nat
       /\ Size.label name = (afterLastSlash name +:+ ":") +:+ Size.spaces k.
Proof.
  unfold Size.label. set (b := afterLastSlash name +:+ ":").
  unfold len. rewrite length_append, length_spaces.
  pose proof (Z.mod_pos_bound (Z.of_nat (String.length b)) 8 ltac:(lia)) as Hb.
  destruct (Z.ltb_spec 0 (Z.of_nat (String.length b) mod 8)) as [Hpos|Hzero].
  - split.
    + rewrite Nat2Z.inj_add, Z2Nat.id by lia.
      rewrite (Z.div_mod (Z.of_nat (String.length b)) 8) at 1 by lia.
      replace (8 * (Z.of_nat (String.length b) / 8) + Z.of_nat (String.length b) mod 8
               + (8 - Z.of_nat (String.length b) mod 8))
        with ((Z.of_nat (String.length b) / 8 + 1) * 8) by lia.
      apply Z.mod_mul. lia.
    + exists (Z.to_nat (8 - Z.of_nat (String.length b) mod 8)). split; [lia|reflexivity].
  - split.
    + simpl Z.to_nat. rewrite Nat.add_0_r. lia.
    + exists 0%nat. split; [lia|reflexivity].
Qed.

End Names.

(* ===================================================================== *)
(** ** Further properties: what reaches the minifier *)
(* ===================================================================== *)

Section Codes.
Context `{Services}.

Lemma get_set_eq (k v : string) (o : JsObj.t) : JsObj.get k (JsObj.set k v o) = Some v.
Proof.
  induction o as [|[k' v'] o IH]; simpl.
  - rewrite String.eqb_refl. reflexivity.
  - destruct (String.eqb k' k) eqn:E; simpl; rewrite ?String.eqb_refl, ?E; [reflexivity|exact IH].
Qed.

Lemma get_set_ne (k k' v : string) (o : JsObj.t) :
  k <> k' -> JsObj.get k' (JsObj.set k v o) = JsObj.get k' o.
Proof.
  intros Hne. induction o as [|[k0 v0] o IH]; simpl.
  - destruct (String.eqb_spec k k'); [contradiction|reflexivity].
  - destruct (String.eqb_spec k0 k) as [->|Hk0]; simpl.
    + destruct (String.eqb_spec k k'); [contradiction|reflexivity].
    + destruct (String.eqb_spec k0 k'); [reflexivity|exact IH].
Qed.

Lemma keys_set (k v : string) (o : JsObj.t) :
  map fst (JsObj.set k v o)
  = if in_dec string_dec k (map fst o) then map fst o else map fst o ++ [k].
Proof.
  induction o as [|[k0 v0] o IH].
  - simpl. reflexivity.
  - cbn [JsObj.set]. destruct (String.eqb_spec k0 k) as [->|Hk0].
    + cbn [map fst]. destruct (in_dec string_dec k (k :: map fst o)) as [_|Hn]; [reflexivity|].
      exfalso. apply Hn. left. reflexivity.
    + cbn [map fst]. rewrite IH.
      destruct (in_dec string_dec k (map fst o)) as [Hin|Hout];
        destruct (in_dec string_dec k (k0 :: map fst o)) as [Hin'|Hout']; try reflexivity.
      * exfalso. apply Hout'. right. exact Hin.
      * exfalso. destruct Hin' as [Heq|Hin']; [exact (Hk0 Heq)|exact (Hout Hin')].
Qed.

Lemma keys_set_in (k v k' : string) (o : JsObj.t) :
  In k' (map fst (JsObj.set k v o)) <-> k' = k \/ In k' (map fst o).
Proof.
  rewrite keys_set. destruct (in_dec string_dec k (map fst o)) as [Hin|Hout].
  - split; [tauto|]. intros [->|Hk]; assumption.
  - rewrite in_app_iff. simpl. split; [intros [?|[?|[]]]; auto|intros [?|?]; auto].
Qed.

Lemma keys_set_NoDup (k v : string) (o : JsObj.t) :
  List.NoDup (map fst o) -> List.NoDup (map fst (JsObj.set k v o)).
Proof.
  intros Hnd. rewrite keys_set.
  destruct (in_dec string_dec k (map fst o)) as [Hin|Hout]; [exact Hnd|].
  induction (map fst o) as [|x l IH]; simpl.
  - constructor; [intros []|constructor].
  - inversion Hnd as [|? ? Hx Hl]; subst. constructor.
    + rewrite in_app_iff. intros [Hin|[Heq|[]]]; [exact (Hx Hin)|].
      apply Hout. left. symmetry. exact Heq.
    + apply IH; [exact Hl|]. intros Hin. apply Hout. right. exact Hin.
Qed.

(** X4. When [#readFiles] of the callback revision returns, the
    dictionary it filled maps every listed file to the content that file has
    on disk, leaves every other key as it was, and holds each key once: a
    file listed twice is bundled once. *)
Theorem readFiles_collects (files : list string) (codes codes' : JsObj.t) (m m' : Machine) :
  Sync.readFiles files codes m = (Normal codes', m') ->
  (forall f, In f files ->
     exists content, disk m !! path_resolve f = Some content
                     /\ JsObj.get f codes' = Some content)
  /\ (forall k, ~ In k files -> JsObj.get k codes' = JsObj.get k codes)
  /\ (forall k, In k (map fst codes') <-> In k files \/ In k (map fst codes))
  /\ (List.NoDup (map fst codes) -> List.NoDup (map fst codes')).
Proof.
  revert codes m. induction files as [|f0 files IH]; intros codes m Hrun.
  - unfold Sync.readFiles in Hrun. simpl in Hrun. injection Hrun as <- <-.
    split; [intros f []|]. split; [intros k _; reflexivity|].
    split; [intros k; simpl; tauto|tauto].
  - unfold Sync.readFiles in *. cbn [forEachM] in Hrun. unfold bind, readFileSync, ret in Hrun.
    destruct (disk m !! path_resolve f0) as [c0|] eqn:E0; [|discriminate].
    destruct (IH _ _ Hrun) as (Hin & Hout & Hkeys & Hnd). cbn [disk emit] in Hin.
    split; [|split; [|split]].
    + intros f [<-|Hf]; [|apply Hin; exact Hf].
      destruct (in_dec string_dec f0 files) as [Hf|Hf]; [apply Hin; exact Hf|].
      exists c0. split; [exact E0|]. rewrite (Hout f0 Hf). apply get_set_eq.
    + intros k Hk. rewrite Hout by (intros Hin'; apply Hk; right; exact Hin').
      apply get_set_ne. intros ->. apply Hk. left. reflexivity.
    + intros k. rewrite Hkeys, keys_set_in. simpl. split.
      * intros [?|[->|?]]; auto.
      * intros [[->|?]|?]; auto.
    + intros Hc. apply Hnd. apply keys_set_NoDup. exact Hc.
Qed.

Lemma async_readFiles_disk_only (files : list string) (codes : JsObj.t) (m m' : Machine) :
  disk m = disk m' ->
  fst (Async.readFiles files codes m) = fst (Async.readFiles files codes m').
Proof.
  revert codes m m'. induction files as [|f files IH]; intros codes m m' Hd; [reflexivity|].
  unfold Async.readFiles in *. cbn [forEachM]. unfold Async.readEntry at 1 3.
  destruct (Async.isURL f).
  - unfold Async.download, bind, effect, ret. apply IH. exact Hd.
  - unfold bind, readFileSync, ret. rewrite <- Hd.
    destruct (disk m !! path_resolve f); [|reflexivity]. apply IH. exact Hd.
Qed.

(** X12. In the async revision the dictionary handed to [minify] holds the
    local files only: reading a list gives the same dictionary as reading
    the list without its https URLs, and it is that dictionary the body of
    [scripts] awaits the minifier with. The responses arrive in later turns,
    after the call of [minify]. *)
Theorem minify_sees_local_files_only (files : list string) (codes : JsObj.t) (m : Machine) :
  fst (Async.readFiles files codes m)
  = fst (Async.readFiles (List.filter (fun f => negb (Async.isURL f)) files) codes m)
  /\ forall output p m',
       Async.scriptsBody (JArray files) output p m = (Normal tt, m') ->
       exists local,
         fst (Async.readFiles (List.filter (fun f => negb (Async.isURL f)) files)
                JsObj.empty m) = Normal local
         /\ In (TAwaitMinify p local (path_resolve output)) (queue m').
Proof.
  assert (Hfilter : forall codes m,
    fst (Async.readFiles files codes m)
    = fst (Async.readFiles (List.filter (fun f => negb (Async.isURL f)) files) codes m)).
  { clear codes m. induction files as [|f files IH]; intros codes m; [reflexivity|].
    cbn [List.filter]. destruct (Async.isURL f) eqn:Eurl; cbn [negb].
    - unfold Async.readFiles at 1. cbn [forEachM]. unfold Async.readEntry at 1.
      rewrite Eurl. unfold Async.download, bind, effect, ret.
      change (forEachM Async.readEntry files codes) with (Async.readFiles files codes).
      rewrite (async_readFiles_disk_only files codes _ m) by reflexivity. apply IH.
    - unfold Async.readFiles at 1 2. cbn [forEachM]. unfold Async.readEntry at 1 3.
      rewrite Eurl. unfold bind, readFileSync, ret.
      destruct (disk m !! path_resolve f); [|reflexivity]. apply IH. }
  split; [apply Hfilter|].
  intros output p m' Hbody. unfold Async.scriptsBody, bind, effect in Hbody.
  rewrite <- Hfilter.
  rewrite (async_readFiles_disk_only files JsObj.empty m (setSlot SlotJs output m))
    by reflexivity.
  destruct (Async.readFiles files JsObj.empty (setSlot SlotJs output m)) as [[local|e] m3];
    [|discriminate].
  injection Hbody as <-. exists local. split; [reflexivity|].
  simpl. apply in_or_app. right. left. reflexivity.
Qed.

End Codes.

(* ===================================================================== *)
(** ** Further properties: the registry and failing reads *)
(* ===================================================================== *)

Section Calls.
Context `{Services}.

(** X11. Whatever [scripts] goes on to do (throw on its argument, fail a
    read, minify, write), once it was called the script slot of the registry
    holds the output path given and the style slot is as before, and this
    stays so through every later turn of the event loop; [styles] does the
    same with the slots exchanged. The async [styles] alone tests its
    argument first and leaves the registry alone when it is not a string. *)
Theorem registry_after_calls (source style : JsValue) (output : string) (m : Machine)
    (n : nat) :
  outputFiles (run n (snd (Sync.scripts source output m)))
    = {| css := css (outputFiles m); js := Some output |}
  /\ outputFiles (run n (snd (Sync.styles style output m)))
     = {| css := Some output; js := js (outputFiles m) |}
  /\ outputFiles (run n (snd (Async.scripts source output m)))
     = {| css := css (outputFiles m); js := Some output |}
  /\ outputFiles (run n (snd (Async.styles style output m)))
     = if notString style then outputFiles m
       else {| css := Some output; js := js (outputFiles m) |}.
Proof.
  rewrite !outputFiles_run. split; [|split; [|split]].
  - unfold Sync.scripts, bind, effect.
    destruct (sync_readSources_grows source (setSlot SlotJs output m)) as [(Ho & _) _].
    destruct (Sync.readSources source (setSlot SlotJs output m)) as [[codes|e] m3];
      simpl in *; exact Ho.
  - destruct style; reflexivity.
  - unfold Async.scripts, Async.async.
    destruct (newPromise m) as [p m0] eqn:Enew. injection Enew as _ <-.
    match goal with |- context [Async.scriptsBody source output p ?m0] =>
      destruct (scriptsBody_shape source output p m0) as (m3 & (Ho & _) & [[e Hb]|[codes Hb]]);
      rewrite Hb; simpl; exact Ho
    end.
  - destruct style; reflexivity.
Qed.

Lemma sync_readFiles_cons (g : string) (rest : list string) (codes : JsObj.t) (m : Machine)
    (c : string) :
  disk m !! path_resolve g = Some c ->
  Sync.readFiles (g :: rest) codes m
  = Sync.readFiles rest (JsObj.set g c codes) (emit (EvReadFile (path_resolve g)) m).
Proof.
  intros Hc. unfold Sync.readFiles. cbn [forEachM]. unfold bind, readFileSync, ret.
  rewrite Hc. reflexivity.
Qed.

Lemma sync_readFiles_missing (f : string) (rest : list string) (codes : JsObj.t)
    (m : Machine) :
  disk m !! path_resolve f = None ->
  Sync.readFiles (f :: rest) codes m
  = (Throw (ENOENT (path_resolve f)), emit (EvReadFile (path_resolve f)) m).
Proof.
  intros Hf. unfold Sync.readFiles. cbn [forEachM]. unfold bind, readFileSync, ret.
  rewrite Hf. reflexivity.
Qed.

Lemma sync_readFiles_stops (pre post : list string) (f : string) :
  forall (codes : JsObj.t) (m : Machine),
  (forall g, In g pre -> is_Some (disk m !! path_resolve g)) ->
  disk m !! path_resolve f = None ->
  fst (Sync.readFiles (pre ++ f :: post) codes m) = Throw (ENOENT (path_resolve f))
  /\ queue (snd (Sync.readFiles (pre ++ f :: post) codes m)) = queue m
  /\ disk (snd (Sync.readFiles (pre ++ f :: post) codes m)) = disk m
  /\ outputFiles (snd (Sync.readFiles (pre ++ f :: post) codes m)) = outputFiles m
  /\ trace (snd (Sync.readFiles (pre ++ f :: post) codes m))
     = trace m ++ map (fun g => EvReadFile (path_resolve g)) (pre ++ [f]).
Proof.
  induction pre as [|g pre IH]; intros codes m Hpre Hf.
  - cbn [app]. rewrite (sync_readFiles_missing f post codes m Hf). repeat split.
  - destruct (Hpre g (or_introl eq_refl)) as [c Hc].
    cbn [app]. rewrite (sync_readFiles_cons g (pre ++ f :: post) codes m c Hc).
    destruct (IH (JsObj.set g c codes) (emit (EvReadFile (path_resolve g)) m))
      as (H1 & H2 & H3 & H4 & H5).
    + intros g' Hg'. apply Hpre. right. exact Hg'.
    + exact Hf.
    + rewrite H1, H2, H3, H4, H5. repeat split.
      cbn [trace emit map app]. rewrite <- app_assoc. reflexivity.
Qed.

(** X5. A list of sources whose first missing file is [f]: [scripts] of the
    callback revision throws the read error of [f] to its caller. The files
    before [f] were read and none after it; nothing was handed to the
    minifier or queued, so nothing is ever written, while the registry
    already names the output. *)
Theorem scripts_missing_source_throws (pre post : list string) (f output : string)
    (m : Machine) :
  (forall g, In g pre -> is_Some (disk m !! path_resolve g)) ->
  disk m !! path_resolve f = None ->
  let r := Sync.scripts (JArray (pre ++ f :: post)) output m in
  fst r = Throw (ENOENT (path_resolve f))
  /\ queue (snd r) = queue m
  /\ disk (snd r) = disk m
  /\ js (outputFiles (snd r)) = Some output
  /\ trace (snd r) = trace m ++ map (fun g => EvReadFile (path_resolve g)) (pre ++ [f])
  /\ (queue m = [] -> forall n, run n (snd r) = snd r).
Proof.
  intros Hpre Hf r.
  assert (Hstop := sync_readFiles_stops (map path_resolve pre) (map path_resolve post)
                     (path_resolve f) JsObj.empty (setSlot SlotJs output m)).
  rewrite path_resolve_idem in Hstop.
  destruct Hstop as (H1 & H2 & H3 & H4 & H5).
  { intros g Hg. apply in_map_iff in Hg as (g0 & <- & Hg0).
    rewrite path_resolve_idem. apply Hpre. exact Hg0. }
  { exact Hf. }
  assert (Hr : r = (Throw (ENOENT (path_resolve f)),
                    snd (Sync.readFiles (map path_resolve (pre ++ f :: post)) JsObj.empty
                           (setSlot SlotJs output m)))).
  { subst r. unfold Sync.scripts, bind, effect, Sync.readSources.
    rewrite map_app in *. cbn [map] in *.
    destruct (Sync.readFiles _ _ _) as [[codes|e] m3]; simpl in H1; [discriminate|].
    injection H1 as ->. reflexivity. }
  rewrite Hr. cbn [fst snd]. rewrite map_app. cbn [map].
  rewrite H2, H3, H4, H5. repeat split.
  - change (trace (setSlot SlotJs output m)) with (trace m). f_equal.
    rewrite !map_app, map_map. cbn [map]. rewrite path_resolve_idem. f_equal.
    apply map_ext. intros g. rewrite path_resolve_idem. reflexivity.
  - intros Hq n. apply run_quiescent. rewrite H2. exact Hq.
Qed.

(** X16. For a file below [Size.exactBelow] bytes, where [Size.round] is
    the rounding of the source, the number printed with a unit stays within
    the unit: between 1 and 1024 for [Kb], between 1 and 134217728 for
    [Mb]; and within a unit a larger file never prints a smaller number. *)
Theorem report_bounds (size size' : Z) :
  (1024 <= size < 1048576 ->
     Size.report size = Size.Kb (Size.round size 1024)
     /\ 100 <= Size.round size 1024 <= 102400)
  /\ (1048576 <= size < Size.exactBelow ->
     Size.report size = Size.Mb (Size.round size 1048576)
     /\ 100 <= Size.round size 1048576 <= 13421772800)
  /\ (1024 <= size <= size' -> size' < 1048576 ->
     Size.round size 1024 <= Size.round size' 1024)
  /\ (1048576 <= size <= size' -> size' < Size.exactBelow ->
     Size.round size 1048576 <= Size.round size' 1048576).
Proof.
  change Size.exactBelow with 140737488355328.
  split; [|split; [|split]].
  - intros [Hlo Hhi]. split.
    + unfold Size.report. destruct (Z.ltb_spec size 1024); [lia|].
      destruct (Z.ltb_spec size 1048576); [reflexivity|lia].
    + unfold Size.round. split.
      * apply Z.div_le_lower_bound; lia.
      * apply Z.lt_succ_r. apply Z.div_lt_upper_bound; lia.
  - intros [Hlo Hhi]. split.
    + unfold Size.report. destruct (Z.ltb_spec size 1024); [lia|].
      destruct (Z.ltb_spec size 1048576); [lia|reflexivity].
    + unfold Size.round. split.
      * apply Z.div_le_lower_bound; lia.
      * apply Z.lt_succ_r. apply Z.div_lt_upper_bound; lia.
  - intros Hle _. unfold Size.round. apply Z.div_le_mono; lia.
  - intros Hle _. unfold Size.round. apply Z.div_le_mono; lia.
Qed.

End Calls.

(* ===================================================================== *)
(** ** Further properties: what a call leaves behind *)
(* ===================================================================== *)

Section Outcomes.
Context `{Services}.

(** The write of [scripts] or [styles] on a writable path, and the size
    report that follows it. *)
Lemma write_then_size (out code name : string) (slot : Slot) (s : Machine) :
  queue s = [] -> path_resolve out ∉ locked s -> slotOf slot (outputFiles s) = Some name ->
  run 2 (enqueue (TWriteFile (path_resolve out) code (CbLogThenSize slot)) s)
  = {| outputFiles := outputFiles s;
       disk := <[path_resolve out := code]> (disk s);
       locked := locked s;
       trace := trace s ++ [EvWrite (path_resolve out) code; EvStat (path_resolve out);
                            EvConsole Stdout (MsgText (Size.line name (JsString.len code)))];
       queue := [];
       promises := promises s |}.
Proof.
  destruct s as [o d l tr q pr]. simpl. intros -> Hfree Hname.
  unfold step, enqueue, withQueue. cbn [queue app complete locked disk trace].
  unfold onWriteFile, performWrite. rewrite path_resolve_idem. cbn [locked].
  destruct (decide (path_resolve out ∈ l)); [contradiction|].
  cbn [onWritten]. unfold printSize, emit, enqueue, withDisk, withQueue.
  cbn [queue app complete outputFiles disk locked trace promises].
  unfold onStat, statSize, logTo, emit. cbn [disk]. rewrite path_resolve_idem.
  rewrite lookup_insert_eq, Hname.
  cbn [fmap option_fmap option_map trace outputFiles disk locked queue promises].
  rewrite <- !app_assoc. reflexivity.
Qed.

(** [scripts] of the callback revision up to its return, on a machine at
    rest: the registry is set, the sources were read, and the minifier was
    called if and only if every read succeeded. *)
Lemma scripts_sync_part (source : JsValue) (output : string) (m : Machine) :
  queue m = [] ->
  exists reads, forallb isReadEvent reads = true
    /\ Sync.scripts source output m
       = (match fst (Sync.readSources source m) with
          | Normal _ => Normal tt
          | Throw e => Throw e
          end,
          {| outputFiles := {| css := css (outputFiles m); js := Some output |};
             disk := disk m;
             locked := locked m;
             trace := trace m ++ reads;
             queue := match fst (Sync.readSources source m) with
                      | Normal codes => [TMinified codes (path_resolve output)]
                      | Throw _ => []
                      end;
             promises := promises m |}).
Proof.
  intros Hq. unfold Sync.scripts, bind, effect.
  rewrite (sync_readSources_disk_only source m (setSlot SlotJs output m)) by reflexivity.
  destruct (sync_readSources_grows source (setSlot SlotJs output m))
    as [(Ho & Hd & Hl & Hp & evs & ts & Htr & _ & Hevs & _) Hq3].
  destruct (Sync.readSources source (setSlot SlotJs output m)) as [[codes|e] m3];
    cbn [fst snd] in *; destruct m3 as [o3 d3 l3 tr3 q3 pr3];
    cbn [outputFiles disk locked trace queue promises setSlot withOutputFiles] in *;
    subst o3 d3 l3 tr3 q3 pr3; exists evs; (split; [exact Hevs|]);
    unfold enqueue, withQueue; cbn [outputFiles disk locked trace queue promises];
    rewrite ?Hq; reflexivity.
Qed.

(** X13. When every source is read and the minifier succeeds on a writable
    output path, [scripts] of the callback revision and the three turns that
    follow replace the output file by the minified text and print exactly
    one line, on standard output: the size of the minified text under the
    base name of the output path as given. Before that only reads happen,
    and nothing stays queued. *)
Theorem scripts_success (source : JsValue) (output code : string) (codes : JsObj.t)
    (m : Machine) :
  queue m = [] ->
  fst (Sync.readSources source m) = Normal codes ->
  terser_minify codes terserConfig = Normal code ->
  path_resolve output ∉ locked m ->
  let m' := runScripts source output m in
  disk m' = <[path_resolve output := code]> (disk m)
  /\ queue m' = []
  /\ exists reads, forallb isReadEvent reads = true
       /\ trace m' = trace m ++ reads
                     ++ [EvWrite (path_resolve output) code; EvStat (path_resolve output);
                         EvConsole Stdout
                           (MsgText (Size.line output (JsString.len code)))].
Proof.
  intros Hq Hcodes Hmin Hfree m'. subst m'. unfold runScripts.
  destruct (scripts_sync_part source output m Hq) as (reads & Hreads & Heq).
  rewrite Heq, Hcodes. cbn [snd].
  change (run 3 ?x) with (run 2 (step x)).
  unfold step, withQueue. cbn [queue complete outputFiles disk locked trace promises].
  unfold Sync.onMinified. rewrite Hmin.
  rewrite (write_then_size output code output SlotJs); [|reflexivity|exact Hfree|reflexivity].
  cbn [disk queue trace]. split; [reflexivity|]. split; [reflexivity|].
  exists reads. split; [exact Hreads|]. rewrite <- app_assoc. reflexivity.
Qed.


(** X14. When the entry file is there and the CSS pipeline succeeds on a
    writable output path, [styles] of the callback revision and the four
    turns that follow read the entry file, replace the output file by the
    transformed text and print one line on standard output with its size.
    The plugins are passed in the order autoprefixer, importer, csso. *)
Theorem styles_success (s output content result : string) (m : Machine) :
  queue m = [] ->
  disk m !! path_resolve s = Some content ->
  postcss_process [autoprefixer; importer; csso] content (path_resolve s)
    (path_resolve output) = Normal result ->
  path_resolve output ∉ locked m ->
  runStyles (JString s) output m
  = {| outputFiles := {| css := Some output; js := js (outputFiles m) |};
       disk := <[path_resolve output := result]> (disk m);
       locked := locked m;
       trace := trace m ++ [EvReadFile (path_resolve s); EvWrite (path_resolve output) result;
                            EvStat (path_resolve output);
                            EvConsole Stdout
                              (MsgText (Size.line output (JsString.len result)))];
       queue := [];
       promises := promises m |}.
Proof.
  destruct m as [o d l tr q pr]. cbn [queue disk locked outputFiles trace promises].
  intros -> Hcontent Hpost Hfree.
  unfold runStyles, Sync.styles, bind, effect.
  change (run 4 ?x) with (run 2 (step (step x))).
  unfold step at 2. unfold enqueue, withQueue, setSlot, withOutputFiles.
  cbn [snd queue app complete outputFiles disk locked trace promises css js].
  unfold Sync.onReadStyle, emit. cbn [disk]. rewrite path_resolve_idem, Hcontent.
  unfold step, enqueue, withQueue.
  cbn [queue app complete outputFiles disk locked trace promises].
  unfold Sync.onProcessed. rewrite Hpost.
  rewrite (write_then_size output result output SlotCss);
    [|reflexivity|exact Hfree|reflexivity].
  cbn [outputFiles disk locked trace promises]. rewrite <- app_assoc. reflexivity.
Qed.

(** X6. [styles] of the callback revision never throws on a bad file or a
    bad stylesheet: when the entry file is missing, and when the CSS
    pipeline rejects, the error is printed with [console.error] and that is
    all: nothing is written, nothing stays queued, and the style slot of the
    registry keeps the output path of a file that was not produced. *)
Theorem styles_failures_logged (s output : string) (m : Machine) :
  queue m = [] ->
  fst (Sync.styles (JString s) output m) = Normal tt
  /\ (disk m !! path_resolve s = None ->
      runStyles (JString s) output m
      = {| outputFiles := {| css := Some output; js := js (outputFiles m) |};
           disk := disk m; locked := locked m;
           trace := trace m ++ [EvReadFile (path_resolve s);
                                EvConsole Stderr (MsgError (ENOENT (path_resolve s)))];
           queue := []; promises := promises m |})
  /\ (forall content e,
        disk m !! path_resolve s = Some content ->
        postcss_process [autoprefixer; importer; csso] content (path_resolve s)
          (path_resolve output) = Throw e ->
        runStyles (JString s) output m
        = {| outputFiles := {| css := Some output; js := js (outputFiles m) |};
             disk := disk m; locked := locked m;
             trace := trace m ++ [EvReadFile (path_resolve s);
                                  EvConsole Stderr (MsgError e)];
             queue := []; promises := promises m |}).
Proof.
  destruct m as [o d l tr q pr]. cbn [queue disk locked outputFiles trace promises].
  intros ->. split; [reflexivity|].
  assert (Hread : forall k,
    run (S k) (snd (Sync.styles (JString s) output
       {| outputFiles := o; disk := d; locked := l; trace := tr; queue := [];
          promises := pr |}))
    = run k (Sync.onReadStyle (path_resolve s) (path_resolve output)
       {| outputFiles := {| css := Some output; js := js o |}; disk := d; locked := l;
          trace := tr; queue := []; promises := pr |})) by reflexivity.
  unfold runStyles. rewrite Hread. unfold Sync.onReadStyle, emit. cbn [disk].
  rewrite path_resolve_idem. split.
  - intros Hnone. rewrite Hnone. rewrite run_quiescent by reflexivity.
    unfold logTo, emit. cbn [outputFiles disk locked trace queue promises].
    rewrite <- app_assoc. reflexivity.
  - intros content e Hcontent Hpost. rewrite Hcontent.
    change (run 3 ?x) with (run 2 (step x)).
    unfold step, enqueue, withQueue.
    cbn [queue app complete outputFiles disk locked trace promises].
    unfold Sync.onProcessed. rewrite Hpost. rewrite run_quiescent by reflexivity.
    unfold logTo, emit. cbn [outputFiles disk locked trace queue promises].
    rewrite <- app_assoc. reflexivity.
Qed.

End Outcomes.

(* ===================================================================== *)
(** ** Further properties: failed writes and the async manifest *)
(* ===================================================================== *)

Section Writes.
Context `{Services}.
Import JsString.


Lemma version_hash_step (m : Machine) (jsPath cssPath c1 c2 : string) :
  queue m = [] ->
  js (outputFiles m) = Some jsPath -> css (outputFiles m) = Some cssPath ->
  disk m !! path_resolve jsPath = Some c1 -> disk m !! path_resolve cssPath = Some c2 ->
  step (snd (Sync.version m))
  = enqueue (TWriteFile (path_resolve manifestPath)
               (Json.stringify
                  [("/js/" +:+ baseName jsPath, baseName jsPath +:+ "?id=" +:+ digest c1);
                   ("/css/" +:+ baseName cssPath, baseName cssPath +:+ "?id=" +:+ digest c2)])
               CbLog) m.
Proof.
  intros Hq Hjs Hcss H1 H2. destruct m as [o d l tr q pr]. simpl in *. subst q.
  unfold step, Sync.version, enqueue, withQueue.
  cbn [snd queue app complete outputFiles disk js css].
  unfold Sync.onHashed, md5File. cbn [disk outputFiles].
  rewrite Hjs, Hcss, H1, H2.
  rewrite (sync_mix o jsPath cssPath) by (try assumption; apply truthy_digest).
  reflexivity.
Qed.

Lemma write_locked (path content : string) (m : Machine) :
  path_resolve path ∈ locked m ->
  onWriteFile (path_resolve path) content CbLog m
  = emit (EvConsole Stdout (MsgError (EWRITE (path_resolve path))))
      (emit (EvWriteFailed (path_resolve path)) m).
Proof.
  intros Hlocked. unfold onWriteFile, performWrite. rewrite path_resolve_idem.
  destruct (decide (path_resolve path ∈ locked m)); [reflexivity|contradiction].
Qed.

(** X3. When the manifest cannot be written, [version] of the callback
    revision prints the write error with [console.log], on standard output,
    and does nothing else: a manifest that was there stays as it was. *)
Theorem manifest_write_failure_logged (m : Machine) (jsPath cssPath c1 c2 : string) :
  queue m = [] ->
  js (outputFiles m) = Some jsPath -> css (outputFiles m) = Some cssPath ->
  disk m !! path_resolve jsPath = Some c1 -> disk m !! path_resolve cssPath = Some c2 ->
  path_resolve manifestPath ∈ locked m ->
  let p := path_resolve manifestPath in
  run 2 (snd (Sync.version m))
  = emit (EvConsole Stdout (MsgError (EWRITE p))) (emit (EvWriteFailed p) m).
Proof.
  intros Hq Hjs Hcss H1 H2 Hlocked p.
  change (run 2 (snd (Sync.version m))) with (step (step (snd (Sync.version m)))).
  rewrite (version_hash_step m jsPath cssPath c1 c2) by assumption.
  destruct m as [o d l tr q pr]. simpl in *. subst q.
  unfold step. simpl. rewrite write_locked by exact Hlocked. reflexivity.
Qed.

(** The three turns of the async [version] once both hashes succeed. *)
Lemma async_version_run (m : Machine) (jsPath cssPath c1 c2 : string) (mix1 mix : JsObj.t) :
  queue m = [] ->
  js (outputFiles m) = Some jsPath -> css (outputFiles m) = Some cssPath ->
  disk m !! path_resolve jsPath = Some c1 -> disk m !! path_resolve cssPath = Some c2 ->
  path_resolve manifestPath ∉ locked m ->
  Async.processFile (digest c1) (digest c2) (Some jsPath) JsObj.empty = Normal mix1 ->
  Async.processFile (digest c1) (digest c2) (Some cssPath) mix1 = Normal mix ->
  run 3 (snd (Async.version m))
  = {| outputFiles := outputFiles m;
       disk := <[path_resolve manifestPath := Json.stringifyIndent4 mix]> (disk m);
       locked := locked m;
       trace := trace m ++ [EvSettled (promises m) (Normal tt);
                            EvWrite (path_resolve manifestPath) (Json.stringifyIndent4 mix)];
       queue := [];
       promises := S (promises m) |}.
Proof.
  destruct m as [o d l tr q pr]. cbn [queue disk locked outputFiles trace promises].
  intros -> Hjs Hcss H1 H2 Hfree Hmix1 Hmix.
  unfold Async.version, Async.async, Async.versionBody, newPromise.
  change (run 3 ?x) with (step (step (step x))).
  unfold step at 3. unfold enqueue, withQueue.
  cbn [snd queue app complete outputFiles disk locked trace promises].
  unfold Async.onAwaitHashJs, md5File. cbn [disk]. rewrite Hjs, H1.
  unfold step at 2. unfold enqueue, withQueue.
  cbn [queue app complete outputFiles disk locked trace promises].
  unfold Async.onAwaitHashCss, md5File. cbn [disk outputFiles]. rewrite Hcss, H2, Hjs, Hmix1, Hmix.
  unfold Async.settle, Async.writeToFile, step, emit, enqueue, withQueue.
  cbn [queue app complete outputFiles disk locked trace promises].
  unfold onWriteFile, performWrite. rewrite path_resolve_idem. cbn [locked].
  destruct (decide (path_resolve manifestPath ∈ l)); [contradiction|].
  cbn [onWritten]. unfold emit, withDisk.
  cbn [outputFiles disk locked trace queue promises].
  rewrite <- app_assoc. reflexivity.
Qed.

Lemma processFile_some (h1 h2 path : string) (mix : JsObj.t) :
  Async.processFile h1 h2 (Some path) mix
  = Normal (if endsWith ".js" (baseName path)
            then JsObj.set ("/js/" +:+ baseName path)
                   ("/js/" +:+ baseName path +:+ "?id=" +:+ h1) mix
            else JsObj.set ("/css/" +:+ baseName path)
                   ("/css/" +:+ baseName path +:+ "?id=" +:+ h2) mix).
Proof.
  unfold Async.processFile. rewrite guarded_replaceAll.
  change (substring (replaceAll backslash slash path)
            (lastIndexOf slash (replaceAll backslash slash path) + 1))
    with (baseName path).
  destruct (endsWith ".js" (baseName path)); reflexivity.
Qed.

(** X1. The async [version] files an output by the ending of its name, not
    by the slot it was recorded in. When the script output's base name ends
    in [.js] and the style output's does not, the three turns after the
    call replace the manifest by the two entries
    [/js/name -> /js/name?id=hash] and [/css/name -> /css/name?id=hash],
    each with the hash of its own file; the promise is fulfilled before the
    write is carried out. *)
Theorem async_version_manifest (m : Machine) (jsPath cssPath c1 c2 : string) :
  queue m = [] ->
  js (outputFiles m) = Some jsPath -> css (outputFiles m) = Some cssPath ->
  disk m !! path_resolve jsPath = Some c1 -> disk m !! path_resolve cssPath = Some c2 ->
  path_resolve manifestPath ∉ locked m ->
  endsWith ".js" (baseName jsPath) = true -> endsWith ".js" (baseName cssPath) = false ->
  let json := Json.stringifyIndent4
    [("/js/" +:+ baseName jsPath, "/js/" +:+ baseName jsPath +:+ "?id=" +:+ digest c1);
     ("/css/" +:+ baseName cssPath, "/css/" +:+ baseName cssPath +:+ "?id=" +:+ digest c2)] in
  disk (run 3 (snd (Async.version m))) = <[path_resolve manifestPath := json]> (disk m)
  /\ trace (run 3 (snd (Async.version m)))
     = trace m ++ [EvSettled (promises m) (Normal tt);
                   EvWrite (path_resolve manifestPath) json]
  /\ queue (run 3 (snd (Async.version m))) = [].
Proof.
  intros Hq Hjs Hcss H1 H2 Hfree Hej Hec json.
  rewrite (async_version_run m jsPath cssPath c1 c2
             [("/js/" +:+ baseName jsPath, "/js/" +:+ baseName jsPath +:+ "?id=" +:+ digest c1)]
             [("/js/" +:+ baseName jsPath, "/js/" +:+ baseName jsPath +:+ "?id=" +:+ digest c1);
              ("/css/" +:+ baseName cssPath,
               "/css/" +:+ baseName cssPath +:+ "?id=" +:+ digest c2)]);
    try assumption.
  - repeat split.
  - rewrite processFile_some, Hej. reflexivity.
  - rewrite processFile_some, Hec. reflexivity.
Qed.

(** X2. When the script output's base name does not end in [.js], the
    async [version] files it under [/css/] with the hash of the style
    output: the hash of the script file appears nowhere in the manifest. If
    in addition both outputs have the same base name, the manifest has a
    single entry. *)
Theorem async_version_misfiles_script (m : Machine) (jsPath cssPath c1 c2 : string) :
  queue m = [] ->
  js (outputFiles m) = Some jsPath -> css (outputFiles m) = Some cssPath ->
  disk m !! path_resolve jsPath = Some c1 -> disk m !! path_resolve cssPath = Some c2 ->
  path_resolve manifestPath ∉ locked m ->
  endsWith ".js" (baseName jsPath) = false -> endsWith ".js" (baseName cssPath) = false ->
  let entry (name : string) := ("/css/" +:+ name, "/css/" +:+ name +:+ "?id=" +:+ digest c2) in
  disk (run 3 (snd (Async.version m))) !! path_resolve manifestPath
  = Some (Json.stringifyIndent4
            (if String.eqb (baseName jsPath) (baseName cssPath)
             then [entry (baseName cssPath)]
             else [entry (baseName jsPath); entry (baseName cssPath)])).
Proof.
  intros Hq Hjs Hcss H1 H2 Hfree Hej Hec entry.
  rewrite (async_version_run m jsPath cssPath c1 c2
             [entry (baseName jsPath)]
             (JsObj.set ("/css/" +:+ baseName cssPath)
                ("/css/" +:+ baseName cssPath +:+ "?id=" +:+ digest c2)
                [entry (baseName jsPath)]));
    try assumption.
  - cbn [disk]. rewrite lookup_insert_eq. apply f_equal. apply f_equal.
    unfold entry. cbn [JsObj.set].
    assert (Hkey : String.eqb ("/css/" +:+ baseName jsPath) ("/css/" +:+ baseName cssPath)
                   = String.eqb (baseName jsPath) (baseName cssPath)) by reflexivity.
    rewrite Hkey. destruct (String.eqb (baseName jsPath) (baseName cssPath)); reflexivity.
  - rewrite processFile_some, Hej. reflexivity.
  - rewrite processFile_some, Hec. reflexivity.
Qed.

End Writes.

(* ===================================================================== *)
(** ** Further properties: a missing source in the async revision *)
(* ===================================================================== *)

Section AsyncFailure.
Context `{Services}.




End AsyncFailure.

(* ===================================================================== *)
(** ** The further properties at concrete inputs *)
(* ===================================================================== *)

Section FurtherOnDemo.
Local Existing Instance Demo.services.

(** [dist/app.min.js] and [dist/app.min.css] recorded and on disk. *)
Lemma async_version_manifest_witness :
  let m := Demo.machine {| css := Some "dist/app.min.css"; js := Some "dist/app.min.js" |}
             [("/w/dist/app.min.js", "JS"); ("/w/dist/app.min.css", "CSS")] in
  queue m = []
  /\ JsString.endsWith ".js" (baseName "dist/app.min.js") = true
  /\ JsString.endsWith ".js" (baseName "dist/app.min.css") = false
  /\ queue (run 3 (snd (Async.version m))) = [].
Proof.
  split; [reflexivity|]. split; [reflexivity|]. split; [reflexivity|].
  refine (proj2 (proj2 (async_version_manifest
            (Demo.machine {| css := Some "dist/app.min.css"; js := Some "dist/app.min.js" |}
               [("/w/dist/app.min.js", "JS"); ("/w/dist/app.min.css", "CSS")])
            "dist/app.min.js" "dist/app.min.css" "JS" "CSS" _ _ _ _ _ _ _ _)));
    first [apply not_elem_of_empty | vm_compute; reflexivity].
Defined.

(** A script output named [bundle.mjs]. *)
Lemma async_version_misfiles_script_witness :
  let m := Demo.machine {| css := Some "dist/app.min.css"; js := Some "dist/bundle.mjs" |}
             [("/w/dist/bundle.mjs", "JS"); ("/w/dist/app.min.css", "CSS")] in
  queue m = []
  /\ JsString.endsWith ".js" (baseName "dist/bundle.mjs") = false
  /\ disk (run 3 (snd (Async.version m))) !! "/w/public/mix-manifest.json"
     = Some (Json.stringifyIndent4
               [("/css/bundle.mjs", "/css/bundle.mjs?id=hCSS");
                ("/css/app.min.css", "/css/app.min.css?id=hCSS")]).
Proof.
  split; [reflexivity|]. split; [reflexivity|].
  refine (async_version_misfiles_script
            (Demo.machine {| css := Some "dist/app.min.css"; js := Some "dist/bundle.mjs" |}
               [("/w/dist/bundle.mjs", "JS"); ("/w/dist/app.min.css", "CSS")])
            "dist/bundle.mjs" "dist/app.min.css" "JS" "CSS" _ _ _ _ _ _ _ _);
    first [apply not_elem_of_empty | vm_compute; reflexivity].
Defined.

(** The manifest path is not writable. *)
Lemma manifest_write_failure_logged_witness :
  let m := Demo.lockedMachine
             {| css := Some "dist/app.min.css"; js := Some "dist/app.min.js" |}
             [("/w/dist/app.min.js", "JS"); ("/w/dist/app.min.css", "CSS")]
             ["/w/public/mix-manifest.json"] in
  queue m = [] /\ (path_resolve manifestPath ∈ locked m)
  /\ run 2 (snd (Sync.version m))
     = emit (EvConsole Stdout (MsgError (EWRITE "/w/public/mix-manifest.json")))
         (emit (EvWriteFailed "/w/public/mix-manifest.json") m).
Proof.
  assert (Hlocked : path_resolve manifestPath
                    ∈ locked (Demo.lockedMachine
                        {| css := Some "dist/app.min.css"; js := Some "dist/app.min.js" |}
                        [("/w/dist/app.min.js", "JS"); ("/w/dist/app.min.css", "CSS")]
                        ["/w/public/mix-manifest.json"])).
  { apply elem_of_list_to_set, list_elem_of_In. left. reflexivity. }
  split; [reflexivity|]. split; [exact Hlocked|].
  refine (manifest_write_failure_logged _ "dist/app.min.js" "dist/app.min.css" "JS" "CSS"
            _ _ _ _ _ Hlocked); vm_compute; reflexivity.
Defined.

(** The same file listed twice. *)
Lemma readFiles_collects_witness :
  let m := Demo.machine initialOutputFiles [("/w/src/a.js", "A;")] in
  let m' := emit (EvReadFile "/w/src/a.js") (emit (EvReadFile "/w/src/a.js") m) in
  Sync.readFiles ["/w/src/a.js"; "/w/src/a.js"] [] m = (Normal [("/w/src/a.js", "A;")], m')
  /\ List.NoDup (map fst [("/w/src/a.js", "A;")])
  /\ JsObj.get "/w/src/b.js" [("/w/src/a.js", "A;")] = None.
Proof.
  assert (Hrun : Sync.readFiles ["/w/src/a.js"; "/w/src/a.js"] []
                   (Demo.machine initialOutputFiles [("/w/src/a.js", "A;")])
                 = (Normal [("/w/src/a.js", "A;")],
                    emit (EvReadFile "/w/src/a.js")
                      (emit (EvReadFile "/w/src/a.js")
                         (Demo.machine initialOutputFiles [("/w/src/a.js", "A;")]))))
    by (vm_compute; reflexivity).
  destruct (readFiles_collects _ _ _ _ _ Hrun) as (_ & Hother & _ & Hnodup).
  split; [exact Hrun|]. split; [apply Hnodup; constructor|].
  apply (Hother "/w/src/b.js"). intros [Heq|[Heq|[]]]; discriminate.
Defined.

(** [a.js] is there, [missing.js] is not, [b.js] is never read. *)
Lemma scripts_missing_source_throws_witness :
  let m := Demo.machine initialOutputFiles [("/w/src/a.js", "A;"); ("/w/src/b.js", "B;")] in
  let r := Sync.scripts (JArray ["src/a.js"; "src/missing.js"; "src/b.js"])
             "dist/app.min.js" m in
  disk m !! path_resolve "src/missing.js" = None
  /\ fst r = Throw (ENOENT "/w/src/missing.js")
  /\ queue (snd r) = []
  /\ trace (snd r) = [EvReadFile "/w/src/a.js"; EvReadFile "/w/src/missing.js"].
Proof.
  split; [vm_compute; reflexivity|].
  destruct (scripts_missing_source_throws ["src/a.js"] ["src/b.js"] "src/missing.js"
              "dist/app.min.js"
              (Demo.machine initialOutputFiles [("/w/src/a.js", "A;"); ("/w/src/b.js", "B;")]))
    as (H1 & H2 & _ & _ & H5 & _).
  - intros g [<-|[]]. exists "A;". vm_compute. reflexivity.
  - vm_compute. reflexivity.
  - split; [exact H1|]. split; [exact H2|exact H5].
Defined.

(** No entry stylesheet on disk. *)
Lemma styles_failures_logged_witness :
  let m := Demo.machine initialOutputFiles [] in
  queue m = [] /\ disk m !! path_resolve "src/site.css" = None
  /\ trace (runStyles (JString "src/site.css") "dist/app.min.css" m)
     = [EvReadFile "/w/src/site.css"; EvConsole Stderr (MsgError (ENOENT "/w/src/site.css"))].
Proof.
  split; [reflexivity|]. split; [vm_compute; reflexivity|].
  rewrite (proj1 (proj2 (styles_failures_logged "src/site.css" "dist/app.min.css"
                           (Demo.machine initialOutputFiles []) eq_refl)));
    [reflexivity|vm_compute; reflexivity].
Defined.



(** A Windows path and a POSIX path to the same name. *)
Lemma baseName_of_join_witness :
  JsString.includes JsString.slash "app.min.js" = false
  /\ baseName ("C:\dist" +:+ String JsString.backslash "app.min.js") = "app.min.js"
  /\ baseName ("./dist" +:+ String JsString.slash "app.min.js") = "app.min.js".
Proof.
  split; [reflexivity|].
  split.
  - exact (proj1 (proj2 (baseName_of_join "C:\dist" "app.min.js" eq_refl eq_refl))).
  - exact (proj1 (baseName_of_join "./dist" "app.min.js" eq_refl eq_refl)).
Defined.

(** One https URL and one local file. *)
Lemma minify_sees_local_files_only_witness :
  let m := Demo.machine initialOutputFiles [("/w/src/a.js", "A;")] in
  let files := ["https://cdn.example.com/lib/x.js"; "src/a.js"] in
  fst (Async.scriptsBody (JArray files) "dist/app.min.js" 0 m) = Normal tt
  /\ exists local,
       fst (Async.readFiles ["src/a.js"] JsObj.empty m) = Normal local
       /\ In (TAwaitMinify 0 local "/w/dist/app.min.js")
            (queue (snd (Async.scriptsBody (JArray files) "dist/app.min.js" 0 m))).
Proof.
  split; [vm_compute; reflexivity|].
  refine (proj2 (minify_sees_local_files_only
                   ["https://cdn.example.com/lib/x.js"; "src/a.js"] JsObj.empty
                   (Demo.machine initialOutputFiles [("/w/src/a.js", "A;")]))
            "dist/app.min.js" 0%nat _ _).
  vm_compute. reflexivity.
Defined.

(** Two sources, output outside them. *)
Lemma scripts_success_witness :
  let m := Demo.machine initialOutputFiles [("/w/src/a.js", "A;"); ("/w/src/b.js", "B;")] in
  let m' := runScripts (JArray ["src/a.js"; "src/b.js"]) "dist/app.min.js" m in
  queue m = [] /\ disk m' !! "/w/dist/app.min.js" = Some "A;B;" /\ queue m' = [].
Proof.
  split; [reflexivity|].
  destruct (scripts_success (JArray ["src/a.js"; "src/b.js"]) "dist/app.min.js" "A;B;"
              [("/w/src/a.js", "A;"); ("/w/src/b.js", "B;")]
              (Demo.machine initialOutputFiles [("/w/src/a.js", "A;"); ("/w/src/b.js", "B;")]))
    as (Hd & Hq & _).
  - reflexivity.
  - vm_compute. reflexivity.
  - reflexivity.
  - apply not_elem_of_empty.
  - split; [|exact Hq]. rewrite Hd. apply lookup_insert_eq.
Defined.

(** An entry stylesheet on disk. *)
Lemma styles_success_witness :
  let m := Demo.machine initialOutputFiles [("/w/src/site.css", "a{}")] in
  queue m = []
  /\ trace (runStyles (JString "src/site.css") "dist/app.min.css" m)
     = [EvReadFile "/w/src/site.css"; EvWrite "/w/dist/app.min.css" "a{}";
        EvStat "/w/dist/app.min.css";
        EvConsole Stdout (MsgText (Size.line "dist/app.min.css" 3))].
Proof.
  split; [reflexivity|].
  rewrite (styles_success "src/site.css" "dist/app.min.css" "a{}" "a{}"
             (Demo.machine initialOutputFiles [("/w/src/site.css", "a{}")]));
    [reflexivity|reflexivity|vm_compute; reflexivity|reflexivity|apply not_elem_of_empty].
Defined.


(** Two kibibytes, and three mebibytes and a half. *)
Lemma report_bounds_witness :
  1024 <= 2048 < 1048576
  /\ 1048576 <= 3670016 < Size.exactBelow
  /\ (Size.report 2048 = Size.Kb (Size.round 2048 1024)
      /\ 100 <= Size.round 2048 1024 <= 102400)
  /\ (Size.report 3670016 = Size.Mb (Size.round 3670016 1048576)
      /\ 100 <= Size.round 3670016 1048576 <= 13421772800)
  /\ Size.round 1048576 1048576 <= Size.round 3670016 1048576.
Proof.
  assert (Hkb : 1024 <= 2048 < 1048576) by lia.
  assert (Hmb : 1048576 <= 3670016 < Size.exactBelow) by (split; [lia|reflexivity]).
  assert (Hle : 1048576 <= 1048576 <= 3670016) by lia.
  split; [exact Hkb|]. split; [exact Hmb|].
  split; [exact (proj1 (report_bounds 2048 2048) Hkb)|].
  split; [exact (proj1 (proj2 (report_bounds 3670016 3670016)) Hmb)|].
  exact (proj2 (proj2 (proj2 (report_bounds 1048576 3670016))) Hle (proj2 Hmb)).
Defined.



(** [scripts(null, ...)] of the async revision. *)
Lemma async_usage_errors_witness :
  let m := Demo.machine initialOutputFiles [] in
  notArrayOrString JNull = true
  /\ fst (Async.scripts JNull "dist/app.min.js" m) = 0%nat
  /\ trace (snd (Async.scripts JNull "dist/app.min.js" m))
     = [EvSettled 0 (Throw (UsageError "Uknown type for 'scripts'!"))].
Proof.
  split; [reflexivity|].
  rewrite (proj1 (async_usage_errors JNull "dist/app.min.js"
                    (Demo.machine initialOutputFiles [])) eq_refl).
  split; reflexivity.
Defined.

End FurtherOnDemo.
